(** * pydpkg: control headers and Debian version comparison

    A shallow embedding of [src/pydpkg/__init__.py] (class [Dpkg]) and the
    properties of its version comparator, revision tokenizer and control
    header handling.

    Modelling conventions.
    - A Python string is a [string]: a sequence of characters with the
      codes 0 to 255, the first 256 code points of Python 3's [str].
      [isdigit], [isdecimal], [isalpha] and [lower] are the tables of
      Python 3's [str] methods on these characters, and [int] is Python 3's
      [int] on such a string, with its limit on the number of digits.
      Characters above 255 are not modelled.
    - A Python [int] is a [Z]: the integers of Python 3, unbounded and of
      one class.
    - An exception is a value of [exn]; a call that may raise returns a
      [result].  [try]/[except] is a [match] on the result.
    - A [for i, x in enumerate(xs)] loop is a [Fixpoint] over the remaining
      elements that carries the index [i] and keeps the whole sequence at
      hand, so that [xs[0:i]], [ys[i]] read as in the source.
    - A [dict] is a [gmap]; an [email.message.Message] is its list of
      (name, value) pairs, in order, names as written in the control file.
    - The archive layers ([arpy], [gzip], [tarfile]) and the parser of
      [email] are libraries: a [Dpkg] object holds the control file as
      parsed.  The debugger that [_process_dpkg_file] calls reads the
      operator's commands from standard input, a list that is threaded
      through the calls. *)

From Stdlib Require Import ZArith Ascii String List Bool Lia.
From Stdlib Require Import DecimalString DecimalPos DecimalZ.
From stdpp Require Import gmap strings.

Import ListNotations.
Local Open Scope string_scope.
Local Open Scope Z_scope.

#[local] Arguments String.append !_ _ / : simpl nomatch.

(** ** Exceptions and results *)

Inductive exn : Type :=
| DpkgVersionError
| DpkgMissingRequiredHeaderError
| ValueError
| IndexError
| KeyError
| BdbQuit.

Inductive result (A : Type) : Type :=
| Ok (a : A)
| Raise (e : exn).

Arguments Ok {A} a.
Arguments Raise {A} e.

Definition bind {A B : Type} (r : result A) (k : A -> result B) : result B :=
  match r with
  | Ok a => k a
  | Raise e => Raise e
  end.

Notation "'let*' p ':=' r 'in' k" := (bind r (fun p => k))
  (at level 10, p pattern, r at level 200, k at level 200).

Definition exn_eqb (e1 e2 : exn) : bool :=
  match e1, e2 with
  | DpkgVersionError, DpkgVersionError
  | DpkgMissingRequiredHeaderError, DpkgMissingRequiredHeaderError
  | ValueError, ValueError
  | IndexError, IndexError
  | KeyError, KeyError
  | BdbQuit, BdbQuit => true
  | _, _ => false
  end.

(** [try: r except e: handler] *)
Definition try_except {A : Type} (r : result A) (e : exn) (handler : result A)
  : result A :=
  match r with
  | Ok a => Ok a
  | Raise e' => if exn_eqb e' e then handler else Raise e'
  end.

(** ** Python string primitives *)

Module Py.

Definition ord (c : ascii) : Z := Z.of_nat (nat_of_ascii c).

(** [c.isdecimal()]: the digits 0 to 9. *)
Definition isdecimal (c : ascii) : bool :=
  (48 <=? ord c) && (ord c <=? 57).

(** [c.isdigit()]: the digits 0 to 9 and the superscripts two (178),
    three (179) and one (185). *)
Definition isdigit (c : ascii) : bool :=
  isdecimal c || (ord c =? 178) || (ord c =? 179) || (ord c =? 185).

(** [c.isalpha()]: the letters A to Z and a to z, the ordinal indicators
    (170, 186), the micro sign (181) and the letters from 192 on, without
    the multiplication sign (215) and the division sign (247). *)
Definition isalpha (c : ascii) : bool :=
  ((65 <=? ord c) && (ord c <=? 90)) || ((97 <=? ord c) && (ord c <=? 122))
  || (ord c =? 170) || (ord c =? 181) || (ord c =? 186)
  || ((192 <=? ord c) && (ord c <=? 214))
  || ((216 <=? ord c) && (ord c <=? 246))
  || (248 <=? ord c).

(** The white space that [int] drops around a number: TAB, LF, VT, FF, CR
    and SPACE, and NEL (133) and the no-break space (160).  The separators
    FS, GS, RS and US (28 to 31) are white space for [str.isspace] and not
    for [int]. *)
Definition int_space (c : ascii) : bool :=
  ((9 <=? ord c) && (ord c <=? 13)) || (ord c =? 32)
  || (ord c =? 133) || (ord c =? 160).

(** The capital letters, A to Z and 192 to 222 without 215, have their
    small letter 32 places on. *)
Definition lower_char (c : ascii) : ascii :=
  if ((65 <=? ord c) && (ord c <=? 90))
     || ((192 <=? ord c) && (ord c <=? 214))
     || ((216 <=? ord c) && (ord c <=? 222))
  then ascii_of_nat (nat_of_ascii c + 32)
  else c.

(** [s.lower()] *)
Fixpoint lower (s : string) : string :=
  match s with
  | EmptyString => EmptyString
  | String c r => String (lower_char c) (lower r)
  end.

(** [s[0:i]] for [0 <= i] *)
Fixpoint slice_to (i : nat) (s : string) : string :=
  match i, s with
  | S i', String c r => String c (slice_to i' r)
  | _, _ => EmptyString
  end.

(** [s[i:]] for [0 <= i] *)
Fixpoint slice_from (i : nat) (s : string) : string :=
  match i, s with
  | S i', String c r => slice_from i' r
  | _, _ => s
  end.

(** [s[i]]; [None] stands for [IndexError]. *)
Fixpoint getitem (s : string) (i : nat) : option ascii :=
  match s, i with
  | EmptyString, _ => None
  | String c _, O => Some c
  | String _ r, S i' => getitem r i'
  end.

(** [s.index(c)]; [None] stands for [ValueError]. *)
Fixpoint index (c : ascii) (s : string) : option nat :=
  match s with
  | EmptyString => None
  | String c' r =>
      if Ascii.eqb c' c then Some O else option_map S (index c r)
  end.

(** [s.rindex(c)]; [None] stands for [ValueError]. *)
Fixpoint rindex (c : ascii) (s : string) : option nat :=
  match s with
  | EmptyString => None
  | String c' r =>
      match rindex c r with
      | Some i => Some (S i)
      | None => if Ascii.eqb c' c then Some O else None
      end
  end.

(** [c in s] *)
Fixpoint contains (c : ascii) (s : string) : bool :=
  match s with
  | EmptyString => false
  | String c' r => Ascii.eqb c' c || contains c r
  end.

(** [int] skips the white space in front of the number ... *)
Fixpoint int_lstrip (s : string) : string :=
  match s with
  | EmptyString => EmptyString
  | String c r => if int_space c then int_lstrip r else s
  end.

(** ... and behind it. *)
Fixpoint int_rstrip (s : string) : string :=
  match s with
  | EmptyString => EmptyString
  | String c r =>
      match int_rstrip r with
      | EmptyString => if int_space c then EmptyString else String c EmptyString
      | r' => String c r'
      end
  end.

Definition int_strip (s : string) : string := int_rstrip (int_lstrip s).

Definition digit_value (c : ascii) : Z := ord c - 48.

(** The digits of an integer literal, most significant first; a single
    underscore may separate two digits. *)
Fixpoint int_digits (acc : Z) (s : string) : option Z :=
  match s with
  | EmptyString => None
  | String c r =>
      if isdecimal c then
        let acc' := 10 * acc + digit_value c in
        match r with
        | EmptyString => Some acc'
        | String c' r' =>
            if Ascii.eqb c' "_" then int_digits acc' r'
            else int_digits acc' r
        end
      else None
  end.

(** The number of digits of a literal. *)
Fixpoint count_digits (s : string) : Z :=
  match s with
  | EmptyString => 0
  | String c r => (if isdecimal c then 1 else 0) + count_digits r
  end.

(** [sys.int_info.default_max_str_digits] *)
Definition max_str_digits : Z := 4300.

(** [int(s)] in base ten: surrounding white space is dropped, one sign is
    allowed, and at least one digit is required; a literal of more than
    [max_str_digits] digits is refused.  [ValueError] otherwise. *)
Definition int (s : string) : result Z :=
  let literal := int_strip s in
  let signed :=
    match literal with
    | EmptyString => None
    | String c r =>
        if Ascii.eqb c "-" then option_map Z.opp (int_digits 0 r)
        else if Ascii.eqb c "+" then int_digits 0 r
        else int_digits 0 (String c r)
    end in
  match signed with
  | Some z =>
      if max_str_digits <? count_digits literal then Raise ValueError
      else Ok z
  | None => Raise ValueError
  end.

End Py.

(** ** Version splitting *)

(** [Dpkg.get_epoch] *)
Definition get_epoch (version_str : string) : result (Z * string) :=
  match Py.index ":" version_str with
  | None => Ok (0, version_str)
  | Some e_index =>
      let* epoch := try_except (Py.int (Py.slice_to e_index version_str))
                      ValueError (Raise DpkgVersionError) in
      Ok (epoch, Py.slice_from (e_index + 1) version_str)
  end.

(** [Dpkg.get_upstream] *)
Definition get_upstream (version_str : string) : string * string :=
  match Py.rindex "-" version_str with
  | None => (version_str, "0")
  | Some d_index =>
      (Py.slice_to d_index version_str, Py.slice_from (d_index + 1) version_str)
  end.

(** [Dpkg.split_full_version] *)
Definition split_full_version (version_str : string)
  : result (Z * string * string) :=
  let* (epoch, full_ver) := get_epoch version_str in
  let '(upstream_rev, debian_rev) := get_upstream full_ver in
  Ok (epoch, upstream_rev, debian_rev).

(** ** Revision tokenizer *)

(** A token of [listify]'s result: a [str] or an [int]. *)
Inductive token : Type :=
| TStr (s : string)
| TInt (n : Z).

(** The [for i, char in enumerate(revision_str)] loop of [get_alphas];
    [rest] holds the characters from index [i] on. *)
Fixpoint get_alphas_loop (revision_str : string) (i : nat) (rest : string)
  : string * string :=
  match rest with
  | EmptyString => (revision_str, EmptyString)
  | String char rest' =>
      if Py.isdigit char then
        if Nat.eqb i 0 then (EmptyString, revision_str)
        else (Py.slice_to i revision_str, Py.slice_from i revision_str)
      else get_alphas_loop revision_str (S i) rest'
  end.

(** [Dpkg.get_alphas] *)
Definition get_alphas (revision_str : string) : string * string :=
  get_alphas_loop revision_str 0 revision_str.

(** The [for i, char in enumerate(revision_str)] loop of [get_digits]. *)
Fixpoint get_digits_loop (revision_str : string) (i : nat) (rest : string)
  : result (Z * string) :=
  match rest with
  | EmptyString =>
      let* n := Py.int revision_str in Ok (n, EmptyString)
  | String char rest' =>
      if negb (Py.isdigit char) then
        if Nat.eqb i 0 then Ok (0, revision_str)
        else
          let* n := Py.int (Py.slice_to i revision_str) in
          Ok (n, Py.slice_from i revision_str)
      else get_digits_loop revision_str (S i) rest'
  end.

(** [Dpkg.get_digits] *)
Definition get_digits (revision_str : string) : result (Z * string) :=
  match revision_str with
  | EmptyString => Ok (0, EmptyString)
  | _ => get_digits_loop revision_str 0 revision_str
  end.

(** The [while revision_str:] loop of [listify], one unfolding per
    iteration.  Every iteration shortens [revision_str], so the loop runs
    at most [length revision_str] times ([listify_loop_fuel] below); the
    first branch is the exit of a loop that has more fuel than it needs. *)
Fixpoint listify_loop (fuel : nat) (revision_str : string)
  : result (list token) :=
  match fuel, revision_str with
  | _, EmptyString => Ok []
  | O, _ => Ok []
  | S fuel', _ =>
      let '(rev_1, remains) := get_alphas revision_str in
      let* (rev_2, remains) := get_digits remains in
      let* result := listify_loop fuel' remains in
      Ok (TStr rev_1 :: TInt rev_2 :: result)
  end.

(** [Dpkg.listify] *)
Definition listify (revision_str : string) : result (list token) :=
  listify_loop (String.length revision_str) revision_str.

(** ** Comparison *)

(** The [for i, char in enumerate(a)] loop of [dstringcmp] inside its
    [try], followed by the code after the [try]; [rest] holds the
    characters of [a] from index [i] on. *)
Fixpoint dstringcmp_loop (b : string) (i : nat) (rest : string) : result Z :=
  match rest with
  | EmptyString =>
      (* the loop is over: [i = len(a)] *)
      match Py.getitem b i with
      | None => Raise IndexError
      | Some b_i => if Ascii.eqb b_i "~" then Ok 1 else Ok (-1)
      end
  | String char rest' =>
      match Py.getitem b i with
      | None =>
          (* except IndexError *)
          if Ascii.eqb char "~" then Ok (-1) else Ok 1
      | Some b_i =>
          if Ascii.eqb char b_i then dstringcmp_loop b (S i) rest'
          else if Ascii.eqb char "~" then Ok (-1)
          else if Ascii.eqb b_i "~" then Ok 1
          else if Py.isalpha char && negb (Py.isalpha b_i) then Ok (-1)
          else if negb (Py.isalpha char) && Py.isalpha b_i then Ok 1
          else if Py.ord char >? Py.ord b_i then Ok 1
          else if Py.ord char <? Py.ord b_i then Ok (-1)
          else dstringcmp_loop b (S i) rest'
      end
  end.

(** [Dpkg.dstringcmp] *)
Definition dstringcmp (a b : string) : result Z :=
  if String.eqb a b then Ok 0 else dstringcmp_loop b 0 a.

(** [isinstance(item, other.__class__)] *)
Definition isinstance_class_of (item other : token) : bool :=
  match item, other with
  | TStr _, TStr _ => true
  | TInt _, TInt _ => true
  | _, _ => false
  end.

Definition token_eqb (t1 t2 : token) : bool :=
  match t1, t2 with
  | TStr s1, TStr s2 => String.eqb s1 s2
  | TInt n1, TInt n2 => Z.eqb n1 n2
  | _, _ => false
  end.

Fixpoint token_list_eqb (l1 l2 : list token) : bool :=
  match l1, l2 with
  | [], [] => true
  | t1 :: r1, t2 :: r2 => token_eqb t1 t2 && token_list_eqb r1 r2
  | _, _ => false
  end.

(** The [for i, item in enumerate(list1)] loop of
    [compare_revision_strings] inside its [try], followed by the
    [return -1] after it.  An [IndexError] of [list2[i]], or one coming out
    of [dstringcmp], is caught by the [except IndexError] clause. *)
Fixpoint compare_items (list2 : list token) (i : nat) (rest : list token)
  : result Z :=
  match rest with
  | [] => Ok (-1)
  | item :: rest' =>
      match nth_error list2 i with
      | None => Ok 1
      | Some item2 =>
          if negb (isinstance_class_of item item2) then Raise DpkgVersionError
          else if token_eqb item item2 then compare_items list2 (S i) rest'
          else
            match item, item2 with
            | TInt n, TInt n2 =>
                if n >? n2 then Ok 1
                else if n <? n2 then Ok (-1)
                else compare_items list2 (S i) rest'
            | TStr s, TStr s2 => try_except (dstringcmp s s2) IndexError (Ok 1)
            | _, _ => Raise DpkgVersionError (* excluded by the test above *)
            end
      end
  end.

(** [Dpkg.compare_revision_strings] *)
Definition compare_revision_strings (rev1 rev2 : string) : result Z :=
  if String.eqb rev1 rev2 then Ok 0
  else
    let* list1 := listify rev1 in
    let* list2 := listify rev2 in
    if token_list_eqb list1 list2 then Ok 0
    else compare_items list2 0 list1.

(** [Dpkg.compare_versions]; [str(ver)] is the identity on a string. *)
Definition compare_versions (ver1 ver2 : string) : result Z :=
  if String.eqb ver1 ver2 then Ok 0
  else
    let* (epoch1, upstream1, debian1) := split_full_version ver1 in
    let* (epoch2, upstream2, debian2) := split_full_version ver2 in
    if epoch1 <? epoch2 then Ok (-1)
    else if epoch1 >? epoch2 then Ok 1
    else
      let* upstr_res := compare_revision_strings upstream1 upstream2 in
      if negb (upstr_res =? 0) then Ok upstr_res
      else
        let* debian_res := compare_revision_strings debian1 debian2 in
        if negb (debian_res =? 0) then Ok debian_res
        else Ok 0.

(** ** Control message *)

Definition REQUIRED_HEADERS : list string :=
  ["package"; "version"; "architecture"].

(** The header list of an [email.message.Message]: (name, value) pairs in
    the order of the control file, names in the case they were written. *)
Definition Message : Type := list (string * string).

Module Msg.

(** [message.keys()] *)
Definition keys (message : Message) : list string := map fst message.

(** [message.items()] *)
Definition items (message : Message) : list (string * string) := message.

(** [message[name]]: the value of the first header whose name matches
    without regard to case, [None] when there is none. *)
Fixpoint getitem (message : Message) (name : string) : option string :=
  match message with
  | [] => None
  | (k, v) :: rest =>
      if String.eqb (Py.lower k) (Py.lower name) then Some v
      else getitem rest name
  end.

(** [message.replace_header(name, value)]: the first matching header gets
    the new value and keeps its name; [KeyError] when none matches. *)
Fixpoint replace_header (message : Message) (name value : string)
  : result Message :=
  match message with
  | [] => Raise KeyError
  | (k, v) :: rest =>
      if String.eqb (Py.lower k) (Py.lower name) then Ok ((k, value) :: rest)
      else
        let* rest' := replace_header rest name value in
        Ok ((k, v) :: rest')
  end.

End Msg.

(** [pdb.set_trace()] stops the program in the debugger, which reads the
    operator's commands from standard input.  A debugger session either
    resumes the program ([continue]) or ends it ([quit], or the end of the
    input), and then [BdbQuit] is raised at the call. *)
Inductive pdb_command : Type :=
| PdbContinue
| PdbQuit.

Definition Stdin : Type := list pdb_command.

Definition pdb_set_trace (stdin : Stdin) : result unit * Stdin :=
  match stdin with
  | [] => (Raise BdbQuit, [])
  | PdbContinue :: stdin' => (Ok tt, stdin')
  | PdbQuit :: stdin' => (Raise BdbQuit, stdin')
  end.

(** [Dpkg._force_encoding]: text stays as it is. *)
Definition _force_encoding (obj : string) : string := obj.

(** [req not in list(map(str.lower, message.keys()))] *)
Definition header_missing (message : Message) (req : string) : bool :=
  negb (existsb (String.eqb req) (map Py.lower (Msg.keys message))).

(** The [for req in REQUIRED_HEADERS] loop of [_process_dpkg_file]. *)
Fixpoint check_required (ignore_missing : bool) (message : Message)
    (reqs : list string) (stdin : Stdin) : result unit * Stdin :=
  match reqs with
  | [] => (Ok tt, stdin)
  | req :: reqs' =>
      if header_missing message req then
        match pdb_set_trace stdin with
        | (Raise e, stdin') => (Raise e, stdin')
        | (Ok _, stdin') =>
            if ignore_missing
            then check_required ignore_missing message reqs' stdin'
            else (Raise DpkgMissingRequiredHeaderError, stdin')
        end
      else check_required ignore_missing message reqs' stdin
  end.

(** The [for header in message.keys()] loop of [_process_dpkg_file].
    [message[header]] is [None] only when no header matches, and then
    [replace_header] raises [KeyError]. *)
Fixpoint coerce_headers (hdrs : list string) (message : Message)
  : result Message :=
  match hdrs with
  | [] => Ok message
  | header :: hdrs' =>
      match Msg.getitem message header with
      | None => Raise KeyError
      | Some v =>
          let* message' :=
            Msg.replace_header message header (_force_encoding v) in
          coerce_headers hdrs' message'
      end
  end.

(** [Dpkg._process_dpkg_file], from the point where the control file has
    been read out of the archive and parsed: [message] is the result of
    [Message(message_body)]. *)
Definition _process_dpkg_file (ignore_missing : bool) (message : Message)
    (stdin : Stdin) : result Message * Stdin :=
  match check_required ignore_missing message REQUIRED_HEADERS stdin with
  | (Raise e, stdin') => (Raise e, stdin')
  | (Ok _, stdin') => (coerce_headers (Msg.keys message) message, stdin')
  end.

(** [dict(pairs)]: a later pair replaces an earlier one with the same key. *)
Definition dict (pairs : list (string * string)) : gmap string string :=
  fold_left (fun d kv => <[fst kv := snd kv]> d) pairs ∅.

(** A [Dpkg] object.  [control] stands for the archive that [filename]
    names: it is the control file of that archive as [Message(message_body)]
    parses it.  [_message] and [_headers] are the caches of the properties
    [message] and [headers]. *)
Record Dpkg : Type := {
  ignore_missing : bool;
  control : Message;
  _message : option Message;
  _headers : option (gmap string string)
}.

(** [Dpkg.__init__] *)
Definition new_Dpkg (control : Message) (ignore_missing : bool) : Dpkg :=
  {| ignore_missing := ignore_missing; control := control;
     _message := None; _headers := None |}.

(** [Dpkg.message]: computed at the first access and kept in the object.
    [not self._message] holds of [None] and of a message without headers. *)
Definition message (self : Dpkg) (stdin : Stdin)
  : result Message * Dpkg * Stdin :=
  match _message self with
  | Some (h :: t) => (Ok (h :: t), self, stdin)
  | _ =>
      match _process_dpkg_file (ignore_missing self) (control self) stdin with
      | (Raise e, stdin') => (Raise e, self, stdin')
      | (Ok m, stdin') =>
          (Ok m,
           {| ignore_missing := ignore_missing self; control := control self;
              _message := Some m; _headers := _headers self |},
           stdin')
      end
  end.

(** [Dpkg.headers]: computed at the first access and kept in the object.
    [not self._headers] holds of [None] and of the empty dictionary. *)
Definition headers (self : Dpkg) (stdin : Stdin)
  : result (gmap string string) * Dpkg * Stdin :=
  let cached :=
    match _headers self with
    | Some d => if decide (d = ∅) then None else Some d
    | None => None
    end in
  match cached with
  | Some d => (Ok d, self, stdin)
  | None =>
      match message self stdin with
      | (Raise e, self', stdin') => (Raise e, self', stdin')
      | (Ok m, self', stdin') =>
          let d := dict (Msg.items m) in
          (Ok d,
           {| ignore_missing := ignore_missing self'; control := control self';
              _message := _message self'; _headers := Some d |},
           stdin')
      end
  end.

(** [Dpkg.get_header] *)
Definition get_header (self : Dpkg) (header : string) (stdin : Stdin)
  : result string * Dpkg * Stdin :=
  match headers self stdin with
  | (Raise e, self', stdin') => (Raise e, self', stdin')
  | (Ok d, self', stdin') =>
      (Ok (default EmptyString (d !! Py.lower header)), self', stdin')
  end.

Definition foo_control : Message :=
  [("Package", "foo"); ("Version", "1.0-1"); ("Architecture", "amd64")].

(** ** Specification-level notions *)

(** Every character is one of the digits 0 to 9. *)
Fixpoint all_digits (s : string) : bool :=
  match s with
  | EmptyString => true
  | String c r => Py.isdecimal c && all_digits r
  end.

(** Every character is a digit for [isdigit]. *)
Fixpoint all_isdigit (s : string) : bool :=
  match s with
  | EmptyString => true
  | String c r => Py.isdigit c && all_isdigit r
  end.

(** A non-negative integer in decimal notation: one digit 0 to 9 or
    more. *)
Definition is_decimal (s : string) : bool :=
  match s with
  | EmptyString => false
  | _ => all_digits s
  end.

(** The number a run of digits denotes, continuing from [acc]. *)
Fixpoint decimal_value (acc : Z) (s : string) : Z :=
  match s with
  | EmptyString => acc
  | String c r => decimal_value (10 * acc + Py.digit_value c) r
  end.

Definition starts_with_digit (s : string) : bool :=
  match s with
  | EmptyString => false
  | String c _ => Py.isdigit c
  end.

(** A run of digits that [int] reads: digits 0 to 9 only, and no more of
    them than [int] takes. *)
Definition readable (ds : string) : bool :=
  all_digits ds && (Z.of_nat (String.length ds) <=? Py.max_str_digits).

(** What [get_digits] makes of the run of digits [ds] that it finds in front
    of [rest]. *)
Definition read_digits (ds rest : string) : result (Z * string) :=
  if readable ds then Ok (decimal_value 0 ds, rest) else Raise ValueError.

(** Every digit of the string is one of the digits 0 to 9. *)
Fixpoint digits_decimal (s : string) : bool :=
  match s with
  | EmptyString => true
  | String c r => (negb (Py.isdigit c) || Py.isdecimal c) && digits_decimal r
  end.

(** No run of digits of the string is longer than [int] takes; [run] counts
    the digits of the current run that lie before [s]. *)
Fixpoint runs_short (run : Z) (s : string) : bool :=
  match s with
  | EmptyString => true
  | String c r =>
      if Py.isdigit c then
        (run <? Py.max_str_digits) && runs_short (run + 1) r
      else runs_short 0 r
  end.

Definition digit_runs_short (s : string) : bool := runs_short 0 s.

(** Every run of digits of the string is [readable]. *)
Definition digit_runs_readable (s : string) : bool :=
  digits_decimal s && digit_runs_short s.

(** The characters of a revision in the specification: the letters A to Z
    and a to z, the digits 0 to 9, and [. - ~ +]. *)
Definition revision_char (c : ascii) : bool :=
  ((65 <=? Py.ord c) && (Py.ord c <=? 90))
  || ((97 <=? Py.ord c) && (Py.ord c <=? 122))
  || Py.isdecimal c
  || Ascii.eqb c "." || Ascii.eqb c "-" || Ascii.eqb c "~" || Ascii.eqb c "+".

Fixpoint revision_chars (s : string) : bool :=
  match s with
  | EmptyString => true
  | String c r => revision_char c && revision_chars r
  end.

(** [c * n] *)
Fixpoint replicate (n : nat) (c : ascii) : string :=
  match n with
  | O => EmptyString
  | S n' => String c (replicate n' c)
  end.

(** The leading run of non-digits of a string, and what follows it. *)
Fixpoint take_alphas (s : string) : string :=
  match s with
  | EmptyString => EmptyString
  | String c r => if Py.isdigit c then EmptyString else String c (take_alphas r)
  end.

Fixpoint drop_alphas (s : string) : string :=
  match s with
  | EmptyString => EmptyString
  | String c r => if Py.isdigit c then s else drop_alphas r
  end.

(** The leading run of digits of a string, and what follows it. *)
Fixpoint take_digits (s : string) : string :=
  match s with
  | EmptyString => EmptyString
  | String c r => if Py.isdigit c then String c (take_digits r) else EmptyString
  end.

Fixpoint drop_digits (s : string) : string :=
  match s with
  | EmptyString => EmptyString
  | String c r => if Py.isdigit c then drop_digits r else s
  end.

(** [dstringcmp]'s loop read as a walk down both strings at once: the second
    argument is [b[i:]]. *)
Fixpoint dstringcmp_walk (a b : string) : result Z :=
  match a, b with
  | EmptyString, EmptyString => Raise IndexError
  | EmptyString, String b_i _ => if Ascii.eqb b_i "~" then Ok 1 else Ok (-1)
  | String char _, EmptyString => if Ascii.eqb char "~" then Ok (-1) else Ok 1
  | String char a', String b_i b' =>
      if Ascii.eqb char b_i then dstringcmp_walk a' b'
      else if Ascii.eqb char "~" then Ok (-1)
      else if Ascii.eqb b_i "~" then Ok 1
      else if Py.isalpha char && negb (Py.isalpha b_i) then Ok (-1)
      else if negb (Py.isalpha char) && Py.isalpha b_i then Ok 1
      else if Py.ord char >? Py.ord b_i then Ok 1
      else if Py.ord char <? Py.ord b_i then Ok (-1)
      else dstringcmp_walk a' b'
  end.

(** The order of two different characters: tilde first, then letters, then
    the rest, each class by character code. *)
Definition char_order (c d : ascii) : Z :=
  if Ascii.eqb c "~" then -1
  else if Ascii.eqb d "~" then 1
  else if Py.isalpha c && negb (Py.isalpha d) then -1
  else if negb (Py.isalpha c) && Py.isalpha d then 1
  else if Py.ord c <? Py.ord d then -1
  else 1.

(** One step of the loop of [compare_revision_strings] on a pair of items
    that are not equal; [None] means that the loop goes on. *)
Definition compare_item (item item2 : token) : option (result Z) :=
  match item, item2 with
  | TInt n, TInt n2 =>
      if n >? n2 then Some (Ok 1)
      else if n <? n2 then Some (Ok (-1))
      else None
  | TStr s, TStr s2 => Some (try_except (dstringcmp s s2) IndexError (Ok 1))
  | _, _ => Some (Raise DpkgVersionError)
  end.

(** The loop of [compare_revision_strings] read as a walk down both lists
    at once: the second argument is [list2[i:]]. *)
Fixpoint compare_items_walk (list1 list2 : list token) : result Z :=
  match list1, list2 with
  | [], _ => Ok (-1)
  | _ :: _, [] => Ok 1
  | item :: rest1, item2 :: rest2 =>
      if negb (isinstance_class_of item item2) then Raise DpkgVersionError
      else if token_eqb item item2 then compare_items_walk rest1 rest2
      else
        match compare_item item item2 with
        | Some r => r
        | None => compare_items_walk rest1 rest2
        end
  end.

(** A list of tokens that goes [str, int, str, int, ...] and has even
    length. *)
Fixpoint alternating (l : list token) : bool :=
  match l with
  | [] => true
  | TStr _ :: TInt _ :: rest => alternating rest
  | _ => false
  end.

(** The tokens at the same position of two lists are of the same class. *)
Fixpoint type_matched (l1 l2 : list token) : bool :=
  match l1, l2 with
  | item :: rest1, item2 :: rest2 =>
      isinstance_class_of item item2 && type_matched rest1 rest2
  | _, _ => true
  end.

(** The decimal rendering of an integer: its digits without leading zeros,
    after a minus sign when it is negative. *)
Definition decimal_rendering (z : Z) : string :=
  NilZero.string_of_int (Z.to_int z).

(** The string tokens and the decimal renderings of the integer tokens, put
    together in order. *)
Fixpoint concat_tokens (l : list token) : string :=
  match l with
  | [] => EmptyString
  | TStr s :: rest => s ++ concat_tokens rest
  | TInt n :: rest => decimal_rendering n ++ concat_tokens rest
  end.

(** A run of digits where it begins has no zero in front of another digit. *)
Definition no_leading_zero (s : string) : bool :=
  match s with
  | String c r => negb (Ascii.eqb c "0" && starts_with_digit r)
  | EmptyString => true
  end.

(** A string that the tokens give back: every run of digits is written
    without a leading zero, and the last character is a digit.
    [in_digits] tells whether the character before [s] was a digit. *)
Fixpoint digit_runs_canonical (in_digits : bool) (s : string) : bool :=
  match s with
  | EmptyString => in_digits
  | String c r =>
      if Py.isdigit c then
        (in_digits || no_leading_zero s) && digit_runs_canonical true r
      else digit_runs_canonical false r
  end.

Definition canonical (s : string) : bool :=
  match s with
  | EmptyString => true
  | _ => digit_runs_canonical false s
  end.

(** [compare_versions] once both versions have been split. *)
Definition compare_split (v1 v2 : Z * string * string) : result Z :=
  let '(epoch1, upstream1, debian1) := v1 in
  let '(epoch2, upstream2, debian2) := v2 in
  if epoch1 <? epoch2 then Ok (-1)
  else if epoch1 >? epoch2 then Ok 1
  else
    let* upstr_res := compare_revision_strings upstream1 upstream2 in
    if negb (upstr_res =? 0) then Ok upstr_res
    else
      let* debian_res := compare_revision_strings debian1 debian2 in
      if negb (debian_res =? 0) then Ok debian_res
      else Ok 0.

(** Every command of the operator resumes the program. *)
Definition all_continue (stdin : Stdin) : bool :=
  forallb (fun cmd => match cmd with PdbContinue => true | PdbQuit => false end)
          stdin.

(** Some required header is missing from the message. *)
Definition some_required_missing (message : Message) : bool :=
  existsb (header_missing message) REQUIRED_HEADERS.

(** A run of digits without its leading zeros, and the decimal notation of
    the number it denotes: [normal_digits "007" = "7"],
    [normal_digits "00" = "0"]. *)
Fixpoint strip_zeros (s : string) : string :=
  match s with
  | EmptyString => EmptyString
  | String c r => if Ascii.eqb c "0" then strip_zeros r else s
  end.

Definition normal_digits (s : string) : string :=
  match strip_zeros s with
  | EmptyString => "0"
  | t => t
  end.

(** ** Notions for the further properties *)

(** [compare_revision_strings] on the token lists of its arguments. *)
Definition compare_token_lists (list1 list2 : list token) : result Z :=
  if token_list_eqb list1 list2 then Ok 0
  else compare_items_walk list1 list2.

(** No character is a digit for [isdigit]. *)
Fixpoint digit_free (s : string) : bool :=
  match s with
  | EmptyString => true
  | String c r => negb (Py.isdigit c) && digit_free r
  end.



(** The value of the last pair with the key [k], as [dict(pairs)[k]]. *)
Fixpoint lookup_last (pairs : list (string * string)) (k : string)
  : option string :=
  match pairs with
  | [] => None
  | (k', v) :: rest =>
      match lookup_last rest k with
      | Some v' => Some v'
      | None => if String.eqb k' k then Some v else None
      end
  end.

(** [Dpkg.compare_version_with] *)
Definition compare_version_with (self : Dpkg) (version_str : string)
    (stdin : Stdin) : result Z * Dpkg * Stdin :=
  match get_header self "version" stdin with
  | (Raise e, self', stdin') => (Raise e, self', stdin')
  | (Ok v, self', stdin') => (compare_versions v version_str, self', stdin')
  end.

(** Every required header is in the message, in some case of letters. *)
Definition has_required_headers (message : Message) : Prop :=
  forall req, In req REQUIRED_HEADERS ->
              exists k, In k (Msg.keys message) /\ Py.lower k = req.

(** ** The archive

    [_process_dpkg_file] reaches the control file through three libraries:
    [arpy] reads the outer archive, [gzip] and [tarfile] open its member
    [control.tar.gz], and [email] parses the control file.  The model takes
    what the libraries deliver: the dictionary of the outer members, and
    for the member [control.tar.gz] the list of the members of the tar
    archive inside, each with its name and with what reading it gives. *)

(** What [extractfile(member)], [read()], [decode('utf-8')] and
    [Message(...)] make of a member of the tar archive. *)
Inductive member_content : Type :=
| NotAFile                       (* [extractfile] returns [None] *)
| NotUtf8                        (* the bytes do not decode *)
| ControlText (message : Message).

Record TarInfo : Type := {
  member_name : string;
  content : member_content
}.

(** A member of the outer archive, as [GzipFile] and [tarfile.open] read
    it. *)
Inductive ar_member : Type :=
| NotGzipTar
| GzipTar (members : list TarInfo).

(** The exceptions of the whole of [_process_dpkg_file]; [LibraryError]
    stands for what [gzip] and [tarfile] raise on a member they cannot
    read. *)
Inductive dpkg_exn : Type :=
| DpkgMissingControlGzipFile
| DpkgMissingControlFile
| AttributeError
| UnicodeDecodeError
| LibraryError
| Builtin (e : exn).

Inductive outcome (A : Type) : Type :=
| Done (a : A)
| Fail (e : dpkg_exn).

Arguments Done {A} a.
Arguments Fail {A} e.

(** [os.path.basename] on POSIX paths: [p[p.rfind('/') + 1:]]. *)
Definition basename (p : string) : string :=
  match Py.rindex "/" p with
  | None => p
  | Some i => Py.slice_from (i + 1) p
  end.

(** [l.index(x)]; [None] stands for [ValueError]. *)
Fixpoint list_index (x : string) (l : list string) : option nat :=
  match l with
  | [] => None
  | y :: rest =>
      if String.eqb y x then Some O else option_map S (list_index x rest)
  end.

(** [_process_dpkg_file] up to [message = Message(message_body)]. *)
Definition read_control_message (archived_files : gmap string ar_member)
  : outcome Message :=
  match archived_files !! "control.tar.gz" with
  | None => Fail DpkgMissingControlGzipFile
  | Some NotGzipTar => Fail LibraryError
  | Some (GzipTar members) =>
      let tar_members := map (fun x => basename (member_name x)) members in
      if negb (existsb (String.eqb "control") tar_members)
      then Fail DpkgMissingControlFile
      else
        match list_index "control" tar_members with
        | None => Fail (Builtin ValueError)
        | Some control_idx =>
            match nth_error members control_idx with
            | None => Fail (Builtin IndexError)
            | Some member =>
                match content member with
                | NotAFile => Fail AttributeError
                | NotUtf8 => Fail UnicodeDecodeError
                | ControlText message => Done message
                end
            end
        end
  end.

(** The whole of [_process_dpkg_file]. *)
Definition process_dpkg_archive (ignore_missing : bool)
    (archived_files : gmap string ar_member) (stdin : Stdin)
  : outcome Message * Stdin :=
  match read_control_message archived_files with
  | Fail e => (Fail e, stdin)
  | Done message =>
      match _process_dpkg_file ignore_missing message stdin with
      | (Ok m, stdin') => (Done m, stdin')
      | (Raise e, stdin') => (Fail (Builtin e), stdin')
      end
  end.

(** No member of the list has the base name "control". *)
Definition no_control_member (members : list TarInfo) : Prop :=
  forall x, In x members -> basename (member_name x) <> "control".

(** An archive as [dpkg-deb] builds it: the control file is [./control],
    behind the directory entry and another file. *)
Definition foo_members : list TarInfo :=
  [ {| member_name := "./"; content := NotAFile |};
    {| member_name := "./md5sums"; content := ControlText [] |};
    {| member_name := "./control"; content := ControlText foo_control |};
    {| member_name := "old/control"; content := NotUtf8 |} ].

Definition foo_archive : gmap string ar_member :=
  <["debian-binary" := NotGzipTar]>
    (<["control.tar.gz" := GzipTar foo_members]>
       (<["data.tar.gz" := GzipTar []]> ∅)).

(** ** Sanity checks of the embedding *)

Example split_full_version_ex :
  split_full_version "1:2.0-3" = Ok (1, "2.0", "3").
Proof. vm_compute. reflexivity. Qed.

Example get_epoch_ex1 : get_epoch "1:2.0" = Ok (1, "2.0").
Proof. vm_compute. reflexivity. Qed.

Example get_epoch_ex2 : get_epoch "nope:2.0" = Raise DpkgVersionError.
Proof. vm_compute. reflexivity. Qed.

Example get_epoch_ex3 : get_epoch "-1:2.0" = Ok (-1, "2.0").
Proof. vm_compute. reflexivity. Qed.

Example decimal_rendering_ex :
  decimal_rendering 120 = "120" /\ decimal_rendering 0 = "0"
  /\ decimal_rendering (-7) = "-7".
Proof. vm_compute. auto. Qed.

Example listify_ex1 :
  listify "1.0~rc1"
  = Ok [TStr EmptyString; TInt 1; TStr "."; TInt 0; TStr "~rc"; TInt 1].
Proof. vm_compute. reflexivity. Qed.

Example listify_ex2 : listify "a" = Ok [TStr "a"; TInt 0].
Proof. vm_compute. reflexivity. Qed.

Example listify_ex3 : listify "1.2-3" =
  Ok [TStr EmptyString; TInt 1; TStr "."; TInt 2; TStr "-"; TInt 3].
Proof. vm_compute. reflexivity. Qed.

Example compare_ex1 : compare_versions "1:1.0" "2.0" = Ok 1.
Proof. vm_compute. reflexivity. Qed.

Example compare_ex2 : compare_versions "1.0" "1.0a" = Ok (-1).
Proof. vm_compute. reflexivity. Qed.

Example compare_ex3 : compare_versions "1.0~rc1" "1.0" = Ok 1.
Proof. vm_compute. reflexivity. Qed.

Example compare_ex4 : compare_versions "1.0~rc1" "1.0a" = Ok (-1).
Proof. vm_compute. reflexivity. Qed.

Example get_header_ex1 :
  fst (fst (get_header (new_Dpkg foo_control false) "package" []))
  = Ok EmptyString.
Proof. vm_compute. reflexivity. Qed.

Example get_header_ex2 :
  fst (fst (get_header
              (new_Dpkg [("package", "foo"); ("version", "1");
                         ("architecture", "all")] false)
              "Package" []))
  = Ok "foo".
Proof. vm_compute. reflexivity. Qed.

Example py_int_ex :
  Py.int "007" = Ok 7 /\ Py.int " +12 " = Ok 12 /\ Py.int "-1" = Ok (-1)
  /\ Py.int "1_000" = Ok 1000 /\ Py.int EmptyString = Raise ValueError
  /\ Py.int "1__0" = Raise ValueError /\ Py.int "_1" = Raise ValueError
  /\ Py.int "1_" = Raise ValueError /\ Py.int "- 1" = Raise ValueError
  /\ Py.int "nope" = Raise ValueError /\ Py.int "1 2" = Raise ValueError.
Proof. vm_compute. repeat split. Qed.

(** [int] drops the no-break space and NEL, not the separator FS; it does
    not read a superscript digit, and it refuses 4301 digits. *)
Example py_int_ex2 :
  Py.int (String "160" "1") = Ok 1
  /\ Py.int (String "133" "1" ++ String "160" EmptyString) = Ok 1
  /\ Py.int (String "028" "1") = Raise ValueError
  /\ Py.int (String "178" EmptyString) = Raise ValueError
  /\ Py.int (String "1" (String "185" EmptyString)) = Raise ValueError
  /\ Py.int (replicate (Z.to_nat 4300) "9") <> Raise ValueError
  /\ Py.int (replicate (Z.to_nat 4301) "9") = Raise ValueError
  /\ Py.int (replicate (Z.to_nat 4301) "0") = Raise ValueError.
Proof. vm_compute. repeat split. discriminate. Qed.

Example py_tables_ex :
  Py.isdigit "178" = true /\ Py.isdecimal "178" = false
  /\ Py.isalpha "233" = true /\ Py.isalpha "215" = false
  /\ Py.isalpha "." = false /\ Py.lower (String "201" "A") = String "233" "a".
Proof. vm_compute. repeat split. Qed.

(** The epoch is read with [int]: a no-break space before the number is
    dropped, the separator FS is not. *)
Example get_epoch_ex4 :
  get_epoch (String "160" "1:2.0") = Ok (1, "2.0")
  /\ get_epoch (String "028" "1:2.0") = Raise DpkgVersionError.
Proof. vm_compute. repeat split. Qed.

(** A superscript digit is a digit for the tokenizer, and not for [int]. *)
Example listify_ex4 :
  get_alphas (String "a" (String "178" EmptyString))
  = ("a", String "178" EmptyString)
  /\ get_digits (String "178" EmptyString) = Raise ValueError
  /\ listify (String "178" EmptyString) = Raise ValueError.
Proof. vm_compute. repeat split. Qed.

(** A letter above 127 is a letter for [dstringcmp]. *)
Example dstringcmp_ex1 : dstringcmp "." (String "233" EmptyString) = Ok 1.
Proof. vm_compute. reflexivity. Qed.

(** ** Facts about the string primitives *)

Section StringFacts.

Lemma append_empty_r (s : string) : s ++ EmptyString = s.
Proof. induction s as [|c s IH]; simpl; [reflexivity | now rewrite IH]. Qed.

Lemma append_assoc (s1 s2 s3 : string) : (s1 ++ s2) ++ s3 = s1 ++ (s2 ++ s3).
Proof. induction s1 as [|c s1 IH]; simpl; [reflexivity | now rewrite IH]. Qed.

Lemma slice_to_from (i : nat) (s : string) :
  Py.slice_to i s ++ Py.slice_from i s = s.
Proof.
  revert s; induction i as [|i IH]; intros [|c s]; simpl; try reflexivity.
  now rewrite IH.
Qed.

Lemma slice_to_length_app (p r : string) :
  Py.slice_to (String.length p) (p ++ r) = p.
Proof. induction p as [|c p IH]; simpl; [now destruct r | now rewrite IH]. Qed.

Lemma slice_from_length_app (p r : string) :
  Py.slice_from (String.length p) (p ++ r) = r.
Proof. induction p as [|c p IH]; simpl; [now destruct r | exact IH]. Qed.

Lemma index_Some (c : ascii) (s : string) (i : nat) :
  Py.index c s = Some i ->
  s = Py.slice_to i s ++ String c (Py.slice_from (S i) s)
  /\ Py.contains c (Py.slice_to i s) = false.
Proof.
  revert i; induction s as [|c' s IH]; intros i; cbn [Py.index]; [discriminate|].
  destruct (Ascii.eqb_spec c' c) as [->|Hne].
  - intros [= <-]; simpl. split; [|reflexivity]. now destruct s.
  - destruct (Py.index c s) as [j|] eqn:Hj; cbn [option_map]; [|discriminate].
    intros [= <-]. destruct (IH j eq_refl) as [Hs Hc].
    change (Py.slice_from (S (S j)) (String c' s)) with (Py.slice_from (S j) s).
    change (Py.slice_to (S j) (String c' s)) with (String c' (Py.slice_to j s)).
    cbn [String.append Py.contains]. rewrite <- Hs, Hc.
    apply Ascii.eqb_neq in Hne as ->. auto.
Qed.

Lemma index_None (c : ascii) (s : string) :
  Py.index c s = None <-> Py.contains c s = false.
Proof.
  induction s as [|c' s IH]; simpl; [tauto|].
  destruct (Ascii.eqb c' c); simpl; [split; discriminate|].
  destruct (Py.index c s); simpl.
  - split; [discriminate|]. intros H. apply IH in H. discriminate.
  - tauto.
Qed.

Lemma index_app (c : ascii) (p r : string) :
  Py.contains c p = false ->
  Py.index c (p ++ String c r) = Some (String.length p).
Proof.
  induction p as [|c' p IH]; simpl.
  - now rewrite Ascii.eqb_refl.
  - intros H. apply orb_false_elim in H as [-> H]. now rewrite (IH H).
Qed.

Lemma rindex_None (c : ascii) (s : string) :
  Py.rindex c s = None <-> Py.contains c s = false.
Proof.
  induction s as [|c' s IH]; simpl; [tauto|].
  destruct (Py.rindex c s).
  - split; [discriminate|]. intros H.
    apply orb_false_elim in H as [_ H]. apply IH in H. discriminate.
  - destruct (Ascii.eqb c' c); simpl; [split; discriminate|tauto].
Qed.

Lemma rindex_app (c : ascii) (p r : string) :
  Py.contains c r = false ->
  Py.rindex c (p ++ String c r) = Some (String.length p).
Proof.
  intros Hr. apply rindex_None in Hr.
  induction p as [|c' p IH]; simpl.
  - now rewrite Hr, Ascii.eqb_refl.
  - now rewrite IH.
Qed.

End StringFacts.

(** ** Facts about [int] *)

Section IntFacts.

Lemma isdecimal_isdigit (c : ascii) :
  Py.isdecimal c = true -> Py.isdigit c = true.
Proof. unfold Py.isdigit. now intros ->. Qed.

Lemma all_digits_isdigit (s : string) :
  all_digits s = true -> all_isdigit s = true.
Proof.
  induction s as [|c s IH]; simpl; [reflexivity|].
  intros H. apply andb_prop in H as [Hc Hs].
  now rewrite (isdecimal_isdigit _ Hc), IH.
Qed.

Lemma isdigit_neq (c d : ascii) :
  Py.isdigit c = true -> Py.isdigit d = false -> Ascii.eqb c d = false.
Proof.
  intros Hc Hd. destruct (Ascii.eqb_spec c d) as [->|]; [congruence | reflexivity].
Qed.

Lemma isdigit_not_space (c : ascii) :
  Py.isdigit c = true -> Py.int_space c = false.
Proof. unfold Py.isdigit, Py.isdecimal, Py.int_space. lia. Qed.

Lemma int_lstrip_digits (s : string) :
  all_isdigit s = true -> Py.int_lstrip s = s.
Proof.
  destruct s as [|c s]; simpl; [reflexivity|].
  intros H. apply andb_prop in H as [Hc _].
  now rewrite (isdigit_not_space _ Hc).
Qed.

Lemma int_rstrip_digits (s : string) :
  all_isdigit s = true -> Py.int_rstrip s = s.
Proof.
  induction s as [|c s IH]; simpl; [reflexivity|].
  intros H. apply andb_prop in H as [Hc Hs].
  rewrite (IH Hs), (isdigit_not_space _ Hc). now destruct s.
Qed.

(** On a run of digits, the literal is read when all of them are digits 0
    to 9. *)
Lemma int_digits_run (s : string) (acc : Z) :
  all_isdigit s = true -> s <> EmptyString ->
  Py.int_digits acc s
  = if all_digits s then Some (decimal_value acc s) else None.
Proof.
  revert acc; induction s as [|c s IH]; intros acc H Hne; [congruence|].
  cbn [all_isdigit] in H. apply andb_prop in H as [Hc Hs].
  cbn [all_digits Py.int_digits decimal_value].
  destruct (Py.isdecimal c); [|reflexivity]. cbn [andb].
  destruct s as [|c' s]; [reflexivity|].
  assert (Hc' : Py.isdigit c' = true)
    by (cbn [all_isdigit] in Hs; now apply andb_prop in Hs).
  rewrite (isdigit_neq c' "_" Hc' eq_refl).
  apply IH; [exact Hs | discriminate].
Qed.

Lemma count_digits_all_digits (s : string) :
  all_digits s = true -> Py.count_digits s = Z.of_nat (String.length s).
Proof.
  induction s as [|c s IH]; [reflexivity|].
  cbn [all_digits]. intros H. apply andb_prop in H as [Hc Hs].
  cbn [Py.count_digits String.length]. rewrite Hc, (IH Hs). lia.
Qed.

(** What [int] makes of a run of digits. *)
Lemma int_digit_run (s : string) :
  all_isdigit s = true -> s <> EmptyString ->
  Py.int s = if readable s then Ok (decimal_value 0 s) else Raise ValueError.
Proof.
  intros H Hne. unfold Py.int, Py.int_strip.
  rewrite (int_lstrip_digits _ H), (int_rstrip_digits _ H).
  destruct s as [|c s]; [congruence|].
  assert (Hc : Py.isdigit c = true)
    by (cbn [all_isdigit] in H; now apply andb_prop in H).
  rewrite (isdigit_neq c "-" Hc eq_refl), (isdigit_neq c "+" Hc eq_refl).
  rewrite (int_digits_run _ 0 H Hne). unfold readable.
  destruct (all_digits (String c s)) eqn:Ha; [|reflexivity].
  rewrite (count_digits_all_digits _ Ha). cbn [andb].
  destruct (Z.ltb_spec Py.max_str_digits (Z.of_nat (String.length (String c s))));
    destruct (Z.leb_spec (Z.of_nat (String.length (String c s))) Py.max_str_digits);
    try reflexivity; lia.
Qed.

(** [int] reads a run of digits 0 to 9 that is not too long as the number
    it denotes. *)
Lemma int_decimal (s : string) :
  is_decimal s = true ->
  Z.of_nat (String.length s) <= Py.max_str_digits ->
  Py.int s = Ok (decimal_value 0 s).
Proof.
  intros H Hlen.
  assert (Hd : all_digits s = true) by (now destruct s).
  rewrite int_digit_run;
    [| now apply all_digits_isdigit | now destruct s].
  unfold readable. rewrite Hd. cbn [andb].
  now apply Z.leb_le in Hlen as ->.
Qed.

(** [int] raises nothing but [ValueError]. *)
Lemma int_raises_ValueError (s : string) (e : exn) :
  Py.int s = Raise e -> e = ValueError.
Proof.
  unfold Py.int.
  destruct (match Py.int_strip s with
            | EmptyString => None
            | String c r => _ end); [|now intros [= <-]].
  destruct (_ <? _); [now intros [= <-] | discriminate].
Qed.

End IntFacts.

(** ** The epoch *)

Section Epoch.

Lemma get_epoch_no_colon (version_str : string) :
  Py.contains ":" version_str = false ->
  get_epoch version_str = Ok (0, version_str).
Proof.
  intros H. apply index_None in H. unfold get_epoch. now rewrite H.
Qed.

Lemma get_epoch_split (prefix rest : string) :
  Py.contains ":" prefix = false ->
  get_epoch (prefix ++ String ":" rest) =
  let* epoch := try_except (Py.int prefix) ValueError (Raise DpkgVersionError) in
  Ok (epoch, rest).
Proof.
  intros H. unfold get_epoch. rewrite (index_app _ _ rest H).
  rewrite slice_to_length_app.
  replace (String.length prefix + 1)%nat with (S (String.length prefix)) by lia.
  change (String ":" rest) with (String ":" EmptyString ++ rest).
  rewrite <- append_assoc.
  replace (S (String.length prefix))
    with (String.length (prefix ++ String ":" EmptyString)).
  - now rewrite slice_from_length_app.
  - clear. induction prefix as [|c p IH]; simpl; [reflexivity | now rewrite IH].
Qed.

Lemma get_epoch_has_colon (version_str : string) :
  Py.contains ":" version_str = true ->
  exists prefix rest,
    version_str = prefix ++ String ":" rest /\ Py.contains ":" prefix = false.
Proof.
  intros H. destruct (Py.index ":" version_str) as [i|] eqn:Hi.
  - apply index_Some in Hi as [Hs Hc]. eauto.
  - apply index_None in Hi. congruence.
Qed.

End Epoch.

(** ** The tokenizer *)

Section Tokenizer.

Lemma length_app_one (p : string) (c : ascii) :
  String.length (p ++ String c EmptyString) = S (String.length p).
Proof. induction p as [|c' p IH]; simpl; [reflexivity | now rewrite IH]. Qed.

Lemma app_one_assoc (p : string) (c : ascii) (r : string) :
  (p ++ String c EmptyString) ++ r = p ++ String c r.
Proof. now rewrite append_assoc. Qed.

Lemma all_isdigit_app (p r : string) :
  all_isdigit (p ++ r) = all_isdigit p && all_isdigit r.
Proof.
  induction p as [|c p IH]; simpl; [reflexivity|].
  now rewrite IH, andb_assoc.
Qed.

Lemma get_alphas_loop_inv (pre rest : string) :
  get_alphas_loop (pre ++ rest) (String.length pre) rest
  = (pre ++ take_alphas rest, drop_alphas rest).
Proof.
  revert pre; induction rest as [|char rest IH]; intros pre.
  - reflexivity.
  - cbn [get_alphas_loop take_alphas drop_alphas].
    destruct (Py.isdigit char) eqn:Hd.
    + rewrite append_empty_r.
      destruct pre as [|c pre]; [reflexivity|].
      replace (Nat.eqb (String.length (String c pre)) 0) with false by reflexivity.
      now rewrite slice_to_length_app, slice_from_length_app.
    + rewrite <- (app_one_assoc pre char rest), <- (length_app_one pre char).
      rewrite IH. now rewrite app_one_assoc.
Qed.

(** [get_alphas] splits off the leading run of non-digits. *)
Lemma get_alphas_eq (s : string) :
  get_alphas s = (take_alphas s, drop_alphas s).
Proof. exact (get_alphas_loop_inv EmptyString s). Qed.


Lemma get_digits_loop_inv (pre rest : string) :
  all_isdigit pre = true ->
  pre ++ rest <> EmptyString ->
  get_digits_loop (pre ++ rest) (String.length pre) rest
  = read_digits (pre ++ take_digits rest) (drop_digits rest).
Proof.
  revert pre; induction rest as [|char rest IH]; intros pre Hpre Hne.
  - cbn [get_digits_loop take_digits drop_digits].
    rewrite append_empty_r in *.
    rewrite (int_digit_run _ Hpre Hne). unfold read_digits.
    now destruct (readable pre).
  - cbn [get_digits_loop take_digits drop_digits].
    destruct (Py.isdigit char) eqn:Hd; cbn [negb].
    + rewrite <- (app_one_assoc pre char rest), <- (length_app_one pre char).
      rewrite IH.
      * now rewrite app_one_assoc.
      * rewrite all_isdigit_app, Hpre. simpl. now rewrite Hd.
      * rewrite app_one_assoc. now destruct pre.
    + rewrite append_empty_r.
      destruct pre as [|c pre]; [reflexivity|].
      replace (Nat.eqb (String.length (String c pre)) 0) with false by reflexivity.
      rewrite slice_to_length_app, slice_from_length_app.
      rewrite (int_digit_run _ Hpre) by discriminate. unfold read_digits.
      now destruct (readable (String c pre)).
Qed.

(** [get_digits] splits off the leading run of digits and has [int] read
    it; the empty run gives 0. *)
Lemma get_digits_eq (s : string) :
  get_digits s = read_digits (take_digits s) (drop_digits s).
Proof.
  destruct s as [|c s]; [reflexivity|].
  exact (get_digits_loop_inv EmptyString (String c s) eq_refl ltac:(discriminate)).
Qed.

Lemma drop_alphas_length (s : string) :
  (String.length (drop_alphas s) <= String.length s)%nat.
Proof.
  induction s as [|c s IH]; simpl; [lia|].
  destruct (Py.isdigit c); simpl; lia.
Qed.

Lemma drop_digits_length (s : string) :
  (String.length (drop_digits s) <= String.length s)%nat.
Proof.
  induction s as [|c s IH]; simpl; [lia|].
  destruct (Py.isdigit c); simpl; lia.
Qed.

(** One iteration of [listify]'s loop shortens the string. *)
Lemma remains_shorter (c : ascii) (s : string) :
  (String.length (drop_digits (drop_alphas (String c s))) <= String.length s)%nat.
Proof.
  cbn [drop_alphas]. destruct (Py.isdigit c) eqn:Hc.
  - cbn [drop_digits]. rewrite Hc. apply drop_digits_length.
  - pose proof (drop_digits_length (drop_alphas s)).
    pose proof (drop_alphas_length s). lia.
Qed.

Lemma listify_loop_step (fuel : nat) (c : ascii) (s : string) :
  listify_loop (S fuel) (String c s) =
  if readable (take_digits (drop_alphas (String c s))) then
    let* result := listify_loop fuel (drop_digits (drop_alphas (String c s))) in
    Ok (TStr (take_alphas (String c s))
        :: TInt (decimal_value 0 (take_digits (drop_alphas (String c s))))
        :: result)
  else Raise ValueError.
Proof.
  cbn [listify_loop]. rewrite get_alphas_eq, get_digits_eq. unfold read_digits.
  now destruct (readable _).
Qed.

(** The loop does not depend on the fuel once there is enough of it. *)
Lemma listify_loop_fuel (fuel1 fuel2 : nat) (s : string) :
  (String.length s <= fuel1)%nat -> (String.length s <= fuel2)%nat ->
  listify_loop fuel1 s = listify_loop fuel2 s.
Proof.
  revert fuel2 s; induction fuel1 as [|fuel1 IH]; intros fuel2 s H1 H2.
  - destruct s; [now destruct fuel2 | simpl in H1; lia].
  - destruct s as [|c s]; [now destruct fuel2|].
    destruct fuel2 as [|fuel2]; [simpl in H2; lia|].
    rewrite !listify_loop_step.
    pose proof (remains_shorter c s). simpl in H1, H2.
    rewrite (IH fuel2); [reflexivity | lia | lia].
Qed.

Lemma listify_empty : listify EmptyString = Ok [].
Proof. reflexivity. Qed.

(** The equation of [listify]: one iteration, then the rest. *)
Lemma listify_step (c : ascii) (s : string) :
  listify (String c s) =
  if readable (take_digits (drop_alphas (String c s))) then
    let* result := listify (drop_digits (drop_alphas (String c s))) in
    Ok (TStr (take_alphas (String c s))
        :: TInt (decimal_value 0 (take_digits (drop_alphas (String c s))))
        :: result)
  else Raise ValueError.
Proof.
  unfold listify. cbn [String.length]. rewrite listify_loop_step.
  pose proof (remains_shorter c s).
  rewrite (listify_loop_fuel (String.length s)
             (String.length (drop_digits (drop_alphas (String c s)))));
    [reflexivity | lia | lia].
Qed.

(** Induction on a string along the iterations of [listify]. *)
Lemma listify_ind (P : string -> Prop) :
  P EmptyString ->
  (forall c s, P (drop_digits (drop_alphas (String c s))) -> P (String c s)) ->
  forall s, P s.
Proof.
  intros H0 Hstep s.
  remember (String.length s) as n eqn:Hn.
  revert s Hn. induction n as [n IH] using lt_wf_ind. intros s ->.
  destruct s as [|c s]; [exact H0|].
  apply Hstep. pose proof (remains_shorter c s).
  apply (IH (String.length (drop_digits (drop_alphas (String c s)))));
    [cbn [String.length]; lia | reflexivity].
Qed.

(** What [listify] returns alternates between [str] and [int]. *)
Lemma listify_alternating (s : string) :
  forall l, listify s = Ok l -> alternating l = true.
Proof.
  induction s as [|c s IH] using listify_ind; intros l.
  - now intros [= <-].
  - rewrite listify_step. destruct (readable _); [|discriminate].
    destruct (listify _) as [l'|] eqn:Hl'; [|discriminate].
    cbn [bind]. intros [= <-]. cbn [alternating]. now apply (IH l').
Qed.

(** [listify] raises nothing but the [ValueError] of [int]. *)
Lemma listify_raises (s : string) :
  forall e, listify s = Raise e -> e = ValueError.
Proof.
  induction s as [|c s IH] using listify_ind; intros e.
  - discriminate.
  - rewrite listify_step. destruct (readable _); [|now intros [= <-]].
    destruct (listify _) as [l'|e'] eqn:Hl'; [discriminate|].
    cbn [bind]. intros [= <-]. now apply IH.
Qed.

Lemma digits_decimal_skip_alphas (s : string) :
  digits_decimal s = digits_decimal (drop_alphas s).
Proof.
  induction s as [|c s IH]; [reflexivity|].
  cbn [drop_alphas]. destruct (Py.isdigit c) eqn:Hc; [reflexivity|].
  cbn [digits_decimal]. now rewrite Hc.
Qed.

Lemma digits_decimal_digits (s : string) :
  digits_decimal s
  = all_digits (take_digits s) && digits_decimal (drop_digits s).
Proof.
  induction s as [|c s IH]; [reflexivity|].
  cbn [take_digits drop_digits]. destruct (Py.isdigit c) eqn:Hc.
  - cbn [digits_decimal all_digits]. rewrite Hc, IH. cbn [negb orb].
    apply andb_assoc.
  - reflexivity.
Qed.

Lemma runs_short_skip_alphas (s : string) :
  runs_short 0 s = runs_short 0 (drop_alphas s).
Proof.
  induction s as [|c s IH]; [reflexivity|].
  cbn [drop_alphas]. destruct (Py.isdigit c) eqn:Hc; [reflexivity|].
  cbn [runs_short]. now rewrite Hc.
Qed.

(** A run of digits that continues [run] digits is short when the whole
    run is. *)
Lemma runs_short_digits (s : string) :
  forall run, 0 <= run <= Py.max_str_digits ->
  runs_short run s
  = (run + Z.of_nat (String.length (take_digits s)) <=? Py.max_str_digits)
    && runs_short 0 (drop_digits s).
Proof.
  induction s as [|c s IH]; intros run Hrun.
  - cbn [runs_short take_digits drop_digits String.length].
    rewrite andb_true_r. symmetry. apply Z.leb_le. lia.
  - cbn [take_digits drop_digits]. destruct (Py.isdigit c) eqn:Hc.
    + cbn [runs_short String.length]. rewrite Hc.
      destruct (Z.ltb_spec run Py.max_str_digits) as [Hlt|Hge].
      * rewrite (IH (run + 1)) by lia.
        now replace (run + 1 + Z.of_nat (String.length (take_digits s)))
          with (run + Z.of_nat (S (String.length (take_digits s)))) by lia.
      * cbn [andb]. symmetry. apply andb_false_intro1. apply Z.leb_gt. lia.
    + cbn [String.length].
      replace (run + Z.of_nat 0 <=? Py.max_str_digits) with true
        by (symmetry; apply Z.leb_le; lia).
      cbn [andb runs_short]. now rewrite Hc.
Qed.

(** What [digit_runs_readable] says about the first iteration of
    [listify]. *)
Lemma digit_runs_readable_step (c : ascii) (s : string) :
  digit_runs_readable (String c s)
  = readable (take_digits (drop_alphas (String c s)))
    && digit_runs_readable (drop_digits (drop_alphas (String c s))).
Proof.
  unfold digit_runs_readable, digit_runs_short, readable.
  rewrite digits_decimal_skip_alphas, digits_decimal_digits.
  rewrite runs_short_skip_alphas.
  rewrite (runs_short_digits _ 0) by (unfold Py.max_str_digits; lia).
  rewrite Z.add_0_l.
  destruct (all_digits _), (digits_decimal _), (_ <=? _), (runs_short 0 _);
    reflexivity.
Qed.




End Tokenizer.

(** ** Decimal rendering *)

Section Rendering.

Lemma isdecimal_cases (c : ascii) :
  Py.isdecimal c = true ->
  c = "0"%char \/ c = "1"%char \/ c = "2"%char \/ c = "3"%char
  \/ c = "4"%char \/ c = "5"%char \/ c = "6"%char \/ c = "7"%char
  \/ c = "8"%char \/ c = "9"%char.
Proof.
  destruct c as [[] [] [] [] [] [] [] []]; vm_compute; intros H;
    try discriminate H; tauto.
Qed.

(** A run of digits is the notation of a [Decimal.uint] with the same
    value. *)
Lemma digits_uint (ds : string) :
  all_digits ds = true ->
  exists d,
    NilEmpty.uint_of_string ds = Some d
    /\ (forall acc, decimal_value (Zpos acc) ds = Zpos (Pos.of_uint_acc d acc))
    /\ decimal_value 0 ds = Z.of_N (Pos.of_uint d).
Proof.
  induction ds as [|c ds IH]; intros H.
  - exists Decimal.Nil. repeat split.
  - cbn [all_digits] in H. apply andb_prop in H as [Hc Hds].
    destruct (IH Hds) as (d & Hd & Hacc & H0).
    cbn [NilEmpty.uint_of_string decimal_value]. rewrite Hd.
    destruct (isdecimal_cases c Hc) as [->|[->|[->|[->|[->|[->|[->|[->|[->| ->]]]]]]]]];
      (eexists; split; [reflexivity|]; split;
       [ intros acc; cbn [Pos.of_uint_acc]; rewrite <- Hacc; f_equal;
         match goal with |- context [Py.digit_value ?c] =>
           let v := eval vm_compute in (Py.digit_value c) in
           change (Py.digit_value c) with v end; lia
       | cbn [Pos.of_uint];
         match goal with |- context [Py.digit_value ?c] =>
           let v := eval vm_compute in (10 * 0 + Py.digit_value c) in
           change (10 * 0 + Py.digit_value c) with v end;
         first [exact H0 | rewrite Hacc; reflexivity] ]).
Qed.

(** The decimal rendering of the number that a run of digits without a
    leading zero denotes is the run. *)
Lemma decimal_rendering_value (ds : string) :
  is_decimal ds = true -> no_leading_zero ds = true ->
  decimal_rendering (decimal_value 0 ds) = ds.
Proof.
  intros Hd Hz.
  assert (Hall : all_digits ds = true) by (now destruct ds).
  destruct (digits_uint ds Hall) as (d & Hu & _ & Hv).
  unfold decimal_rendering. rewrite Hv.
  change (Z.of_N (Pos.of_uint d)) with (Z.of_int (Decimal.Pos d)).
  rewrite DecimalZ.to_of. cbn [Decimal.norm].
  assert (Hn : Decimal.unorm d = d).
  { destruct ds as [|c ds]; [discriminate|].
    cbn [NilEmpty.uint_of_string] in Hu.
    destruct (NilEmpty.uint_of_string ds) as [d'|] eqn:Hd';
      [|now destruct c as [[] [] [] [] [] [] [] []]].
    apply uint_of_char_spec in Hu.
    destruct Hu as [[-> ->]|Hu].
    - destruct ds as [|c' ds]; [now injection Hd' as <-|].
      cbn [no_leading_zero starts_with_digit] in Hz.
      cbn [all_digits] in Hall.
      apply andb_prop in Hall as [_ Hall]. apply andb_prop in Hall as [Hc' _].
      rewrite (isdecimal_isdigit _ Hc') in Hz. discriminate.
    - repeat (destruct Hu as [[-> ->]|Hu]; [reflexivity|]).
      now destruct Hu as [-> ->]. }
  rewrite Hn. cbn [NilZero.string_of_int].
  unfold NilZero.string_of_uint.
  pose proof (NilEmpty.sus _ _ Hu) as Hs.
  destruct d; [cbn in Hs; subst ds; discriminate|..]; exact Hs.
Qed.

End Rendering.

(** ** Putting the tokens back together *)

Section Reconstruction.

Lemma take_drop_alphas (s : string) : take_alphas s ++ drop_alphas s = s.
Proof.
  induction s as [|c s IH]; simpl; [reflexivity|].
  destruct (Py.isdigit c); simpl; [reflexivity | now rewrite IH].
Qed.

Lemma take_drop_digits (s : string) : take_digits s ++ drop_digits s = s.
Proof.
  induction s as [|c s IH]; simpl; [reflexivity|].
  destruct (Py.isdigit c); simpl; [now rewrite IH | reflexivity].
Qed.

Lemma drop_alphas_starts (s : string) :
  drop_alphas s = EmptyString \/ starts_with_digit (drop_alphas s) = true.
Proof.
  induction s as [|c s IH]; simpl; [now left|].
  destruct (Py.isdigit c) eqn:Hc; [right; exact Hc | exact IH].
Qed.

Lemma drop_digits_starts (s : string) :
  starts_with_digit (drop_digits s) = false.
Proof.
  induction s as [|c s IH]; simpl; [reflexivity|].
  destruct (Py.isdigit c) eqn:Hc; [exact IH | exact Hc].
Qed.

Lemma take_digits_starts (s : string) :
  starts_with_digit (take_digits s) = starts_with_digit s.
Proof.
  destruct s as [|c s]; simpl; [reflexivity|].
  destruct (Py.isdigit c) eqn:Hc; simpl; now rewrite ?Hc.
Qed.

Lemma canonical_skip_alphas (s : string) :
  digit_runs_canonical false s = digit_runs_canonical false (drop_alphas s).
Proof.
  induction s as [|c s IH]; simpl; [reflexivity|].
  destruct (Py.isdigit c) eqn:Hc; [simpl; now rewrite Hc | exact IH].
Qed.

Lemma canonical_skip_digits (s : string) :
  digit_runs_canonical true s = digit_runs_canonical true (drop_digits s).
Proof.
  induction s as [|c s IH]; simpl; [reflexivity|].
  destruct (Py.isdigit c) eqn:Hc; [exact IH | simpl; now rewrite Hc].
Qed.

Lemma canonical_after_digits (s : string) :
  starts_with_digit s = false -> digit_runs_canonical true s = canonical s.
Proof. destruct s as [|c s]; simpl; [reflexivity | now intros ->]. Qed.

(** What [canonical] says about the first iteration of [listify]. *)
Lemma canonical_step (c : ascii) (s : string) :
  canonical (String c s) = true ->
  let ds := take_digits (drop_alphas (String c s)) in
  ds <> EmptyString /\ no_leading_zero ds = true
  /\ canonical (drop_digits (drop_alphas (String c s))) = true.
Proof.
  intros H. change (digit_runs_canonical false (String c s) = true) in H.
  rewrite canonical_skip_alphas in H.
  destruct (drop_alphas_starts (String c s)) as [He|Hs];
    [rewrite He in H; discriminate|].
  destruct (drop_alphas (String c s)) as [|c1 r1]; [discriminate|].
  cbn [starts_with_digit] in Hs.
  cbn [digit_runs_canonical] in H. rewrite Hs in H.
  cbn [orb] in H. apply andb_prop in H as [Hz H].
  rewrite canonical_skip_digits, canonical_after_digits in H
    by apply drop_digits_starts.
  cbn [take_digits drop_digits]. rewrite Hs. cbv zeta. repeat split.
  - discriminate.
  - cbn [no_leading_zero] in *. now rewrite take_digits_starts.
  - exact H.
Qed.

End Reconstruction.

(** ** The lexical comparison *)

Section Lexical.

Lemma slice_from_S (i : nat) (c : ascii) (s : string) :
  Py.slice_from (S i) (String c s) = Py.slice_from i s.
Proof. reflexivity. Qed.

Lemma getitem_slice_from (b : string) (i : nat) :
  match Py.getitem b i with
  | None => Py.slice_from i b = EmptyString
  | Some c => Py.slice_from i b = String c (Py.slice_from (S i) b)
  end.
Proof.
  revert i; induction b as [|c b IH]; intros [|i]; try reflexivity.
  cbn [Py.getitem]. specialize (IH i).
  destruct (Py.getitem b i); rewrite !slice_from_S; exact IH.
Qed.

(** The indexed loop is the walk down both strings. *)
Lemma dstringcmp_loop_walk (b : string) (i : nat) (rest : string) :
  dstringcmp_loop b i rest = dstringcmp_walk rest (Py.slice_from i b).
Proof.
  revert i; induction rest as [|char rest IH]; intros i;
    cbn [dstringcmp_loop]; pose proof (getitem_slice_from b i) as Hg;
    destruct (Py.getitem b i) as [b_i|]; rewrite Hg;
    cbn [dstringcmp_walk]; rewrite ?IH; reflexivity.
Qed.

Lemma dstringcmp_walk_eq (a b : string) :
  dstringcmp a b = if String.eqb a b then Ok 0 else dstringcmp_walk a b.
Proof.
  unfold dstringcmp. now rewrite dstringcmp_loop_walk.
Qed.

Lemma ord_inj (c d : ascii) : Py.ord c = Py.ord d -> c = d.
Proof.
  unfold Py.ord. intros H. apply Nat2Z.inj in H.
  now rewrite <- (ascii_nat_embedding c), <- (ascii_nat_embedding d), H.
Qed.

(** On two different characters the loop returns at once, with their
    order. *)
Lemma dstringcmp_walk_differ (c d : ascii) (a b : string) :
  c <> d ->
  dstringcmp_walk (String c a) (String d b) = Ok (char_order c d).
Proof.
  intros Hne. cbn [dstringcmp_walk]. unfold char_order.
  apply Ascii.eqb_neq in Hne as Hb. rewrite Hb.
  assert (Py.ord c <> Py.ord d) by (intros H; now apply Hne, ord_inj).
  destruct (Ascii.eqb c "~"); [reflexivity|].
  destruct (Ascii.eqb d "~"); [reflexivity|].
  destruct (Py.isalpha c && negb (Py.isalpha d)); [reflexivity|].
  destruct (negb (Py.isalpha c) && Py.isalpha d); [reflexivity|].
  rewrite Z.gtb_ltb.
  destruct (Z.ltb_spec (Py.ord d) (Py.ord c));
    destruct (Z.ltb_spec (Py.ord c) (Py.ord d)); try reflexivity; lia.
Qed.

Lemma dstringcmp_walk_same (c : ascii) (a b : string) :
  dstringcmp_walk (String c a) (String c b) = dstringcmp_walk a b.
Proof. cbn [dstringcmp_walk]. now rewrite Ascii.eqb_refl. Qed.

Lemma char_order_values (c d : ascii) :
  char_order c d = 1 \/ char_order c d = -1.
Proof.
  unfold char_order.
  repeat match goal with |- context [if ?x then _ else _] =>
    destruct x end; auto.
Qed.

Lemma char_order_antisym (c d : ascii) :
  c <> d -> char_order d c = - char_order c d.
Proof.
  intros Hne. unfold char_order.
  destruct (Ascii.eqb_spec c "~") as [->|Hc];
    destruct (Ascii.eqb_spec d "~") as [->|Hd]; try congruence; try reflexivity.
  assert (Py.ord c <> Py.ord d) by (intros H; now apply Hne, ord_inj).
  destruct (Py.isalpha c), (Py.isalpha d); cbn [andb negb]; try reflexivity;
    destruct (Z.ltb_spec (Py.ord c) (Py.ord d));
    destruct (Z.ltb_spec (Py.ord d) (Py.ord c)); try reflexivity; lia.
Qed.

(** The walk on two different strings never raises. *)
Lemma dstringcmp_walk_total (a b : string) :
  a <> b -> exists z, dstringcmp_walk a b = Ok z /\ (z = 1 \/ z = -1).
Proof.
  revert b; induction a as [|c a IH]; intros [|d b] Hne.
  - congruence.
  - cbn [dstringcmp_walk]. destruct (Ascii.eqb d "~"); eauto.
  - cbn [dstringcmp_walk]. destruct (Ascii.eqb c "~"); eauto.
  - destruct (Ascii.eqb_spec c d) as [->|Hcd].
    + rewrite dstringcmp_walk_same. apply IH. congruence.
    + rewrite (dstringcmp_walk_differ _ _ _ _ Hcd). eexists. split; [reflexivity|].
      apply char_order_values.
Qed.

Lemma dstringcmp_walk_antisym (a b : string) (z : Z) :
  a <> b -> dstringcmp_walk a b = Ok z -> dstringcmp_walk b a = Ok (- z).
Proof.
  revert b; induction a as [|c a IH]; intros [|d b] Hne.
  - congruence.
  - cbn [dstringcmp_walk]. destruct (Ascii.eqb d "~"); now intros [= <-].
  - cbn [dstringcmp_walk]. destruct (Ascii.eqb c "~"); now intros [= <-].
  - destruct (Ascii.eqb_spec c d) as [->|Hcd].
    + rewrite !dstringcmp_walk_same. apply IH. congruence.
    + rewrite (dstringcmp_walk_differ _ _ _ _ Hcd).
      rewrite (dstringcmp_walk_differ d c) by congruence.
      intros [= <-]. now rewrite char_order_antisym.
Qed.

(** [dstringcmp] never raises. *)
Lemma dstringcmp_total (a b : string) :
  exists z, dstringcmp a b = Ok z /\ (z = 0 \/ z = 1 \/ z = -1).
Proof.
  rewrite dstringcmp_walk_eq. destruct (String.eqb_spec a b) as [_|Hne].
  - eauto.
  - destruct (dstringcmp_walk_total a b Hne) as (z & -> & Hz). exists z. tauto.
Qed.

Lemma dstringcmp_antisym (a b : string) (z : Z) :
  dstringcmp a b = Ok z -> dstringcmp b a = Ok (- z).
Proof.
  rewrite !dstringcmp_walk_eq. rewrite (String.eqb_sym b a).
  destruct (String.eqb_spec a b) as [_|Hne].
  - now intros [= <-].
  - now apply dstringcmp_walk_antisym.
Qed.

Lemma append_cons_neq (p : string) (c d : ascii) (a b : string) :
  c <> d -> p ++ String c a <> p ++ String d b.
Proof.
  intros Hne. induction p as [|x p IH]; simpl; [congruence|].
  intros [= H]. now apply IH.
Qed.

Lemma append_neq_self (p : string) (c : ascii) (r : string) :
  p <> p ++ String c r.
Proof.
  induction p as [|x p IH]; simpl; [discriminate|].
  intros [= H]. now apply IH.
Qed.

Lemma dstringcmp_walk_prefix (p a b : string) :
  dstringcmp_walk (p ++ a) (p ++ b) = dstringcmp_walk a b.
Proof.
  induction p as [|x p IH]; [reflexivity|].
  cbn [String.append]. now rewrite dstringcmp_walk_same.
Qed.

End Lexical.

(** ** The revision comparison *)

Section Revisions.

Lemma nth_error_skipn (l : list token) (i : nat) :
  match nth_error l i with
  | None => skipn i l = []
  | Some x => skipn i l = x :: skipn (S i) l
  end.
Proof.
  revert i; induction l as [|x l IH]; intros [|i]; try reflexivity.
  exact (IH i).
Qed.

(** The indexed loop is the walk down both lists. *)
Lemma compare_items_walk_eq (list2 : list token) (i : nat) (rest : list token) :
  compare_items list2 i rest = compare_items_walk rest (skipn i list2).
Proof.
  revert i; induction rest as [|item rest IH]; intros i; [reflexivity|].
  cbn [compare_items]. pose proof (nth_error_skipn list2 i) as Hn.
  destruct (nth_error list2 i) as [item2|]; rewrite Hn;
    cbn [compare_items_walk]; [|reflexivity].
  rewrite IH. unfold compare_item.
  destruct item as [s|n], item2 as [s2|n2]; cbn [isinstance_class_of negb];
    try reflexivity.
  destruct (token_eqb (TInt n) (TInt n2)); [reflexivity|].
  destruct (n >? n2); [reflexivity|]. now destruct (n <? n2).
Qed.

Lemma token_eqb_eq (t1 t2 : token) : token_eqb t1 t2 = true <-> t1 = t2.
Proof.
  destruct t1 as [s1|n1], t2 as [s2|n2]; cbn [token_eqb];
    try (split; [discriminate | congruence]).
  - rewrite String.eqb_eq. split; congruence.
  - rewrite Z.eqb_eq. split; congruence.
Qed.

Lemma token_eqb_sym (t1 t2 : token) : token_eqb t1 t2 = token_eqb t2 t1.
Proof.
  destruct t1, t2; cbn [token_eqb]; try reflexivity.
  - apply String.eqb_sym.
  - apply Z.eqb_sym.
Qed.

Lemma token_list_eqb_eq (l1 l2 : list token) :
  token_list_eqb l1 l2 = true <-> l1 = l2.
Proof.
  revert l2; induction l1 as [|t1 l1 IH]; intros [|t2 l2];
    cbn [token_list_eqb]; try (split; [discriminate | congruence]);
    [tauto|].
  rewrite andb_true_iff, token_eqb_eq, IH. split; [intros [-> ->] | intros [= -> ->]]; auto.
Qed.

Lemma token_list_eqb_sym (l1 l2 : list token) :
  token_list_eqb l1 l2 = token_list_eqb l2 l1.
Proof.
  revert l2; induction l1 as [|t1 l1 IH]; intros [|t2 l2];
    cbn [token_list_eqb]; try reflexivity.
  now rewrite token_eqb_sym, IH.
Qed.

Lemma isinstance_class_of_sym (t1 t2 : token) :
  isinstance_class_of t1 t2 = isinstance_class_of t2 t1.
Proof. now destruct t1, t2. Qed.

(** Two alternating lists have tokens of the same class at every
    position. *)
Lemma alternating_type_matched (l1 : list token) :
  forall l2, alternating l1 = true -> alternating l2 = true ->
             type_matched l1 l2 = true.
Proof.
  induction l1 as [l1 IH] using (induction_ltof1 _ (@List.length token)).
  unfold ltof in IH. intros l2 H1 H2.
  destruct l1 as [|[s1|] [|[|n1] r1]]; try discriminate; [reflexivity|].
  destruct l2 as [|[s2|] [|[|n2] r2]]; try discriminate; [reflexivity|].
  cbn [type_matched isinstance_class_of andb].
  apply IH; [simpl; lia | exact H1 | exact H2].
Qed.

(** On an unequal pair of items of the same class the loop returns. *)
Lemma compare_item_returns (item item2 : token) :
  isinstance_class_of item item2 = true -> token_eqb item item2 = false ->
  exists z, compare_item item item2 = Some (Ok z) /\ (z = 1 \/ z = -1)
            /\ compare_item item2 item = Some (Ok (- z)).
Proof.
  destruct item as [s|n], item2 as [s2|n2]; try discriminate; intros _ Hne;
    cbn [token_eqb compare_item] in *.
  - apply String.eqb_neq in Hne.
    rewrite !dstringcmp_walk_eq. rewrite (String.eqb_sym s2 s).
    apply String.eqb_neq in Hne as Hb. rewrite Hb.
    destruct (dstringcmp_walk_total s s2 Hne) as (z & Hz & Hv).
    rewrite Hz, (dstringcmp_walk_antisym _ _ _ Hne Hz). cbn [try_except].
    eauto.
  - apply Z.eqb_neq in Hne. rewrite !Z.gtb_ltb.
    destruct (Z.ltb_spec n2 n), (Z.ltb_spec n n2); try lia;
      eexists; (split; [reflexivity|]); split; auto.
Qed.

(** The walk down two lists whose tokens match in class never raises. *)
Lemma compare_items_walk_total (l1 : list token) :
  forall l2, type_matched l1 l2 = true ->
  exists z, compare_items_walk l1 l2 = Ok z /\ (z = 1 \/ z = -1).
Proof.
  induction l1 as [|item l1 IH]; intros [|item2 l2] Hm;
    cbn [compare_items_walk]; eauto.
  cbn [type_matched] in Hm. apply andb_prop in Hm as [Hc Hm].
  rewrite Hc. cbn [negb].
  destruct (token_eqb item item2) eqn:He; [now apply IH|].
  destruct (compare_item_returns _ _ Hc He) as (z & -> & Hz & _). eauto.
Qed.

Lemma compare_items_walk_antisym (l1 : list token) :
  forall l2 z, l1 <> l2 -> compare_items_walk l1 l2 = Ok z ->
               compare_items_walk l2 l1 = Ok (- z).
Proof.
  induction l1 as [|item l1 IH]; intros [|item2 l2] z Hne;
    cbn [compare_items_walk]; try congruence; try (now intros [= <-]).
  rewrite (isinstance_class_of_sym item2 item), (token_eqb_sym item2 item).
  destruct (isinstance_class_of item item2) eqn:Hc; cbn [negb]; [|discriminate].
  destruct (token_eqb item item2) eqn:He.
  - apply token_eqb_eq in He as ->. apply IH. congruence.
  - destruct (compare_item_returns _ _ Hc He) as (y & -> & _ & ->).
    now intros [= <-].
Qed.

(** [compare_revision_strings] in terms of the walk. *)
Lemma compare_revision_strings_eq (rev1 rev2 : string) :
  compare_revision_strings rev1 rev2 =
  if String.eqb rev1 rev2 then Ok 0
  else
    let* list1 := listify rev1 in
    let* list2 := listify rev2 in
    if token_list_eqb list1 list2 then Ok 0
    else compare_items_walk list1 list2.
Proof.
  unfold compare_revision_strings.
  destruct (String.eqb rev1 rev2); [reflexivity|].
  destruct (listify rev1) as [list1|]; [|reflexivity].
  destruct (listify rev2) as [list2|]; [|reflexivity].
  cbn [bind]. now rewrite compare_items_walk_eq.
Qed.

(** [compare_revision_strings] looks at the token lists only. *)
Lemma compare_revision_strings_tokens (rev1 rev2 : string)
    (l1 l2 : list token) :
  listify rev1 = Ok l1 -> listify rev2 = Ok l2 ->
  compare_revision_strings rev1 rev2 = compare_token_lists l1 l2.
Proof.
  intros H1 H2. rewrite compare_revision_strings_eq. unfold compare_token_lists.
  destruct (String.eqb_spec rev1 rev2) as [->|_].
  - assert (l1 = l2) as -> by congruence.
    now rewrite (proj2 (token_list_eqb_eq l2 l2) eq_refl).
  - now rewrite H1, H2.
Qed.

(** When [compare_revision_strings] returns, the strings are the same or
    [listify] has read both. *)
Lemma compare_revision_strings_Ok_inv (rev1 rev2 : string) (z : Z) :
  compare_revision_strings rev1 rev2 = Ok z ->
  (rev1 = rev2 /\ z = 0)
  \/ (exists l1 l2, listify rev1 = Ok l1 /\ listify rev2 = Ok l2
                    /\ compare_token_lists l1 l2 = Ok z).
Proof.
  rewrite compare_revision_strings_eq.
  destruct (String.eqb_spec rev1 rev2) as [->|_]; [intros [= <-]; now left|].
  destruct (listify rev1) as [l1|]; [|discriminate].
  destruct (listify rev2) as [l2|]; [|discriminate].
  cbn [bind]. intros H. right. exists l1, l2. now repeat split.
Qed.

(** Two alternating lists compare without an error. *)
Lemma compare_token_lists_returns (l1 l2 : list token) :
  alternating l1 = true -> alternating l2 = true ->
  exists z, compare_token_lists l1 l2 = Ok z /\ (z = 0 \/ z = 1 \/ z = -1).
Proof.
  intros H1 H2. unfold compare_token_lists.
  destruct (token_list_eqb l1 l2); [eauto|].
  destruct (compare_items_walk_total l1 l2 (alternating_type_matched _ _ H1 H2))
    as (z & -> & Hz).
  exists z. tauto.
Qed.



Lemma compare_revision_strings_raises (rev1 rev2 : string) (e : exn) :
  compare_revision_strings rev1 rev2 = Raise e ->
  e = ValueError /\ rev1 <> rev2
  /\ (listify rev1 = Raise ValueError \/ listify rev2 = Raise ValueError).
Proof.
  rewrite compare_revision_strings_eq.
  destruct (String.eqb_spec rev1 rev2) as [->|Hne]; [discriminate|].
  destruct (listify rev1) as [l1|e1] eqn:H1; cbn [bind].
  2: { intros [= <-]. pose proof (listify_raises _ _ H1) as ->. auto. }
  destruct (listify rev2) as [l2|e2] eqn:H2; cbn [bind].
  2: { intros [= <-]. pose proof (listify_raises _ _ H2) as ->. auto. }
  destruct (compare_token_lists_returns l1 l2
              (listify_alternating _ _ H1) (listify_alternating _ _ H2))
    as (z & Hz & _).
  unfold compare_token_lists in Hz. rewrite Hz. discriminate.
Qed.

Lemma compare_revision_strings_values (rev1 rev2 : string) (z : Z) :
  compare_revision_strings rev1 rev2 = Ok z -> z = 0 \/ z = 1 \/ z = -1.
Proof.
  intros H. destruct (compare_revision_strings_Ok_inv _ _ _ H)
    as [[_ ->]|(l1 & l2 & H1 & H2 & Hz)]; [auto|].
  destruct (compare_token_lists_returns l1 l2
              (listify_alternating _ _ H1) (listify_alternating _ _ H2))
    as (z' & Hz' & Hv).
  congruence.
Qed.

Lemma compare_revision_strings_antisym (rev1 rev2 : string) (z : Z) :
  compare_revision_strings rev1 rev2 = Ok z ->
  compare_revision_strings rev2 rev1 = Ok (- z).
Proof.
  rewrite !compare_revision_strings_eq. rewrite (String.eqb_sym rev2 rev1).
  destruct (String.eqb rev1 rev2); [now intros [= <-]|].
  destruct (listify rev1) as [l1|]; [|discriminate].
  destruct (listify rev2) as [l2|]; [|discriminate]. cbn [bind].
  rewrite (token_list_eqb_sym l2 l1).
  destruct (token_list_eqb l1 l2) eqn:He; [now intros [= <-]|].
  apply compare_items_walk_antisym. intros ->.
  now rewrite (proj2 (token_list_eqb_eq l2 l2) eq_refl) in He.
Qed.

Lemma compare_revision_strings_refl (rev : string) :
  compare_revision_strings rev rev = Ok 0.
Proof. unfold compare_revision_strings. now rewrite String.eqb_refl. Qed.

(** When the tokens of [rev2] are a proper prefix of those of [rev1], the
    loop of [compare_revision_strings] runs off the end of [list2] and
    [rev1] is declared greater, whatever the next token is. *)
Lemma compare_items_walk_longer (l : list token) (x : token) (r : list token) :
  compare_items_walk (l ++ x :: r)%list l = Ok 1.
Proof.
  induction l as [|t l IH]; [reflexivity|].
  cbn [List.app compare_items_walk].
  rewrite (proj2 (token_eqb_eq t t) eq_refl).
  now destruct t.
Qed.

Lemma token_list_eqb_longer (l : list token) (x : token) (r : list token) :
  token_list_eqb (l ++ x :: r)%list l = false.
Proof.
  induction l as [|t l IH]; [reflexivity|].
  cbn [List.app token_list_eqb]. rewrite IH. apply andb_false_r.
Qed.

(** There is no exception for the tilde when one token list runs out:
    the longer revision is the greater one, whatever its next token. *)
Lemma compare_revision_strings_longer (rev1 rev2 : string)
    (l : list token) (x : token) (r : list token) :
  listify rev2 = Ok l -> listify rev1 = Ok (l ++ x :: r)%list ->
  compare_revision_strings rev1 rev2 = Ok 1
  /\ compare_revision_strings rev2 rev1 = Ok (-1).
Proof.
  intros H2 H1.
  assert (H : compare_revision_strings rev1 rev2 = Ok 1).
  { rewrite compare_revision_strings_eq.
    destruct (String.eqb_spec rev1 rev2) as [->|_].
    - rewrite H2 in H1. injection H1 as H1.
      apply (f_equal (@List.length token)) in H1.
      rewrite List.length_app in H1. cbn [List.length] in H1. lia.
    - rewrite H1, H2. cbn [bind].
      now rewrite token_list_eqb_longer, compare_items_walk_longer. }
  split; [exact H|]. exact (compare_revision_strings_antisym _ _ _ H).
Qed.
End Revisions.

(** ** The version comparison *)

Section Versions.

Lemma compare_versions_eq (ver1 ver2 : string) :
  compare_versions ver1 ver2 =
  if String.eqb ver1 ver2 then Ok 0
  else
    let* v1 := split_full_version ver1 in
    let* v2 := split_full_version ver2 in
    compare_split v1 v2.
Proof.
  unfold compare_versions.
  destruct (String.eqb ver1 ver2); [reflexivity|].
  destruct (split_full_version ver1) as [[[e1 u1] d1]|]; [|reflexivity].
  destruct (split_full_version ver2) as [[[e2 u2] d2]|]; reflexivity.
Qed.

Lemma compare_split_refl (v : Z * string * string) : compare_split v v = Ok 0.
Proof.
  destruct v as [[e u] d]. unfold compare_split.
  rewrite Z.ltb_irrefl, Z.gtb_ltb, Z.ltb_irrefl.
  now rewrite !compare_revision_strings_refl.
Qed.

Lemma compare_split_antisym (v1 v2 : Z * string * string) (z : Z) :
  compare_split v1 v2 = Ok z -> compare_split v2 v1 = Ok (- z).
Proof.
  destruct v1 as [[e1 u1] d1], v2 as [[e2 u2] d2]. unfold compare_split.
  rewrite !Z.gtb_ltb.
  destruct (Z.ltb_spec e1 e2), (Z.ltb_spec e2 e1); try lia;
    try (now intros [= <-]).
  destruct (compare_revision_strings u1 u2) as [x|] eqn:Hu; [|discriminate].
  rewrite (compare_revision_strings_antisym _ _ _ Hu). cbn [bind].
  replace (- x =? 0) with (x =? 0)
    by (destruct (Z.eqb_spec x 0), (Z.eqb_spec (- x) 0); lia).
  destruct (Z.eqb_spec x 0) as [->|]; cbn [negb]; [|now intros [= <-]].
  destruct (compare_revision_strings d1 d2) as [y|] eqn:Hd; [|discriminate].
  rewrite (compare_revision_strings_antisym _ _ _ Hd). cbn [bind].
  replace (- y =? 0) with (y =? 0)
    by (destruct (Z.eqb_spec y 0), (Z.eqb_spec (- y) 0); lia).
  destruct (Z.eqb_spec y 0) as [->|]; cbn [negb]; now intros [= <-].
Qed.

Lemma get_upstream_no_hyphen (s : string) :
  Py.contains "-" s = false -> get_upstream s = (s, "0").
Proof.
  intros H. apply rindex_None in H. unfold get_upstream. now rewrite H.
Qed.

Lemma get_upstream_zero (s : string) :
  Py.contains "-" s = false -> get_upstream (s ++ "-0") = (s, "0").
Proof.
  intros _. unfold get_upstream.
  rewrite (rindex_app "-" s "0" eq_refl).
  rewrite slice_to_length_app.
  replace (String.length s + 1)%nat
    with (String.length (s ++ String "-" EmptyString)) by (rewrite length_app_one; lia).
  change (s ++ "-0") with (s ++ String "-" "0").
  rewrite <- (app_one_assoc s "-" "0").
  now rewrite slice_from_length_app.
Qed.

Lemma contains_app (c : ascii) (s t : string) :
  Py.contains c (s ++ t) = Py.contains c s || Py.contains c t.
Proof.
  induction s as [|x s IH]; simpl; [reflexivity|].
  now rewrite IH, orb_assoc.
Qed.

Lemma get_epoch_zero (s : string) : get_epoch ("0:" ++ s) = Ok (0, s).
Proof. exact (get_epoch_split "0" s eq_refl). Qed.

(** The epoch of [s ++ "-0"] is that of [s]. *)
Lemma get_epoch_app_zero (s : string) (epoch : Z) (full_ver : string) :
  get_epoch s = Ok (epoch, full_ver) ->
  get_epoch (s ++ "-0") = Ok (epoch, full_ver ++ "-0").
Proof.
  destruct (Py.contains ":" s) eqn:Hc.
  - destruct (get_epoch_has_colon s Hc) as (prefix & rest & -> & Hp).
    rewrite append_assoc. cbn [String.append].
    rewrite !(get_epoch_split _ _ Hp).
    destruct (try_except _ _ _); [|discriminate].
    cbn [bind]. now intros [= -> ->].
  - rewrite (get_epoch_no_colon _ Hc). intros [= <- <-].
    apply get_epoch_no_colon. now rewrite contains_app, Hc.
Qed.

Lemma contains_suffix (c : ascii) (p s : string) :
  Py.contains c (p ++ s) = false -> Py.contains c s = false.
Proof. rewrite contains_app. now intros [_ ?]%orb_false_elim. Qed.

(** The text after the epoch has no hyphen when the version has none. *)
Lemma get_epoch_no_hyphen (s : string) (epoch : Z) (full_ver : string) :
  Py.contains "-" s = false ->
  get_epoch s = Ok (epoch, full_ver) -> Py.contains "-" full_ver = false.
Proof.
  intros Hh. destruct (Py.contains ":" s) eqn:Hc.
  - destruct (get_epoch_has_colon s Hc) as (prefix & rest & -> & Hp).
    rewrite (get_epoch_split _ _ Hp).
    destruct (try_except _ _ _); [|discriminate].
    cbn [bind]. intros [= _ <-].
    apply contains_suffix in Hh. cbn [Py.contains] in Hh.
    now apply orb_false_elim in Hh.
  - rewrite (get_epoch_no_colon _ Hc). now intros [= _ <-].
Qed.

End Versions.

(** ** The control message *)

Section Control.

Lemma getitem_replace_header (message : Message) (name v : string) :
  Msg.getitem message name = Some v ->
  Msg.replace_header message name v = Ok message.
Proof.
  induction message as [|[k v'] message IH]; cbn [Msg.getitem Msg.replace_header];
    [discriminate|].
  destruct (String.eqb (Py.lower k) (Py.lower name)).
  - now intros [= ->].
  - intros H. now rewrite (IH H).
Qed.

Lemma getitem_of_key (message : Message) (name : string) :
  In name (Msg.keys message) -> exists v, Msg.getitem message name = Some v.
Proof.
  induction message as [|[k v] message IH]; cbn [Msg.keys map In Msg.getitem fst];
    [tauto|].
  destruct (String.eqb_spec (Py.lower k) (Py.lower name)) as [_|Hne]; [eauto|].
  intros [->|H]; [congruence | now apply IH].
Qed.

Lemma coerce_headers_sub (message : Message) (hdrs : list string) :
  (forall h, In h hdrs -> In h (Msg.keys message)) ->
  coerce_headers hdrs message = Ok message.
Proof.
  induction hdrs as [|h hdrs IH]; intros Hsub; [reflexivity|].
  cbn [coerce_headers].
  destruct (getitem_of_key message h (Hsub h (or_introl eq_refl))) as [v Hv].
  rewrite Hv. unfold _force_encoding.
  rewrite (getitem_replace_header _ _ _ Hv). cbn [bind].
  apply IH. intros h' Hh'. apply Hsub. now right.
Qed.

(** The second loop of [_process_dpkg_file] leaves the message as it
    is. *)
Lemma coerce_headers_id (message : Message) :
  coerce_headers (Msg.keys message) message = Ok message.
Proof. now apply coerce_headers_sub. Qed.

(** Without a missing header the debugger is not entered. *)
Lemma check_required_present (ignore : bool) (message : Message)
    (reqs : list string) (stdin : Stdin) :
  existsb (header_missing message) reqs = false ->
  check_required ignore message reqs stdin = (Ok tt, stdin).
Proof.
  induction reqs as [|req reqs IH]; cbn [existsb check_required];
    [reflexivity|].
  intros H. apply orb_false_elim in H as [-> H]. now apply IH.
Qed.

(** With a missing header and no command for the debugger, [BdbQuit]
    comes out of the first stop. *)
Lemma check_required_no_input (ignore : bool) (message : Message)
    (reqs : list string) :
  existsb (header_missing message) reqs = true ->
  check_required ignore message reqs [] = (Raise BdbQuit, []).
Proof.
  induction reqs as [|req reqs IH]; cbn [existsb check_required];
    [discriminate|].
  destruct (header_missing message req); [reflexivity | exact IH].
Qed.

(** When the operator resumes the program at every stop, the loop does
    what it would do without the debugger. *)
Lemma check_required_resumed (ignore : bool) (message : Message)
    (reqs : list string) :
  forall stdin,
    all_continue stdin = true ->
    (List.length reqs <= List.length stdin)%nat ->
    fst (check_required ignore message reqs stdin) =
    if negb ignore && existsb (header_missing message) reqs
    then Raise DpkgMissingRequiredHeaderError
    else Ok tt.
Proof.
  induction reqs as [|req reqs IH]; intros stdin Hc Hl;
    cbn [existsb check_required]; [now rewrite andb_false_r|].
  destruct (header_missing message req); cbn [orb].
  - destruct stdin as [|[|] stdin]; cbn [List.length] in Hl; [lia| |discriminate].
    cbn [pdb_set_trace]. destruct ignore; [|reflexivity].
    rewrite IH; [reflexivity | exact Hc | lia].
  - apply IH; [exact Hc | cbn [List.length] in Hl; lia].
Qed.

Lemma dict_fold_lookup (pairs : list (string * string)) :
  forall (d : gmap string string) (k : string),
    fold_left (fun d kv => <[fst kv := snd kv]> d) pairs d !! k = None
    <-> d !! k = None /\ ~ In k (map fst pairs).
Proof.
  induction pairs as [|[k' v] pairs IH]; intros d k; cbn [fold_left map In fst snd].
  - tauto.
  - rewrite IH. destruct (decide (k' = k)) as [->|Hne].
    + rewrite lookup_insert_eq. split; [intros [[=] _] | tauto].
    + rewrite lookup_insert_ne by exact Hne. tauto.
Qed.

(** A key of [dict(message.items())] is the name of a header. *)
Lemma dict_lookup_None (message : Message) (k : string) :
  dict (Msg.items message) !! k = None <-> ~ In k (Msg.keys message).
Proof.
  unfold dict, Msg.items, Msg.keys. rewrite dict_fold_lookup.
  rewrite lookup_empty. tauto.
Qed.

Lemma header_missing_keys (message : Message) (req k : string) :
  header_missing message req = true -> Py.lower k = req ->
  ~ In k (Msg.keys message).
Proof.
  unfold header_missing. intros H <- Hin.
  apply negb_true_iff in H.
  assert (He : existsb (String.eqb (Py.lower k)) (map Py.lower (Msg.keys message)) = true).
  { apply existsb_exists. exists (Py.lower k). split.
    - now apply in_map.
    - apply String.eqb_refl. }
  congruence.
Qed.

(** The claim about required headers holds of every run in which the
    operator resumes the program at each stop of the debugger. *)
Lemma process_dpkg_file_resumed (ignore : bool) (message : Message)
    (stdin : Stdin) :
  all_continue stdin = true -> (3 <= List.length stdin)%nat ->
  (fst (_process_dpkg_file ignore message stdin)
     = Raise DpkgMissingRequiredHeaderError
   <-> ignore = false /\ some_required_missing message = true)
  /\ (ignore = true ->
      fst (_process_dpkg_file ignore message stdin) = Ok message)
  /\ (forall req k,
        header_missing message req = true -> Py.lower k = req ->
        dict (Msg.items message) !! k = None).
Proof.
  intros Hc Hl. unfold _process_dpkg_file, some_required_missing.
  pose proof (check_required_resumed ignore message REQUIRED_HEADERS stdin Hc Hl) as H.
  assert (Hd : forall req k,
             header_missing message req = true -> Py.lower k = req ->
             dict (Msg.items message) !! k = None).
  { intros req k Hm Hk. apply dict_lookup_None.
    now apply (header_missing_keys _ req). }
  destruct (check_required ignore message REQUIRED_HEADERS stdin)
    as [[[]|e] stdin']; cbn [fst] in *; rewrite ?coerce_headers_id;
    (split; [|split; [|exact Hd]]).
  - split; [discriminate|]. intros [-> Hm]. rewrite Hm in H. discriminate.
  - reflexivity.
  - split.
    + intros [= ->]. destruct ignore; [discriminate|].
      cbn [negb andb] in H. now destruct (existsb _ _).
    + intros [-> Hm]. rewrite Hm in H. now injection H as ->.
  - intros ->. discriminate.
Qed.

(** With a required header missing and no input for the debugger,
    [_process_dpkg_file] ends in [BdbQuit] in either mode. *)
Lemma process_dpkg_file_no_input (ignore : bool) (message : Message) :
  some_required_missing message = true ->
  _process_dpkg_file ignore message [] = (Raise BdbQuit, []).
Proof.
  intros H. unfold _process_dpkg_file.
  now rewrite (check_required_no_input _ _ _ H).
Qed.

End Control.

(** ** Strings that the tokens do not give back *)

Section Lossy.

Lemma strip_zeros_value (s : string) (H : all_digits s = true) :
  decimal_value 0 (strip_zeros s) = decimal_value 0 s.
Proof.
  induction s as [|c s IH]; [reflexivity|].
  cbn [all_digits] in H. apply andb_prop in H as [_ H].
  cbn [strip_zeros]. destruct (Ascii.eqb_spec c "0") as [->|]; [|reflexivity].
  now rewrite (IH H).
Qed.

Lemma strip_zeros_all_digits (s : string) :
  all_digits s = true -> all_digits (strip_zeros s) = true.
Proof.
  induction s as [|c s IH]; [reflexivity|].
  intros H. cbn [strip_zeros]. destruct (Ascii.eqb c "0"); [|exact H].
  cbn [all_digits] in H. apply andb_prop in H as [_ H]. now apply IH.
Qed.

Lemma strip_zeros_head (s : string) :
  match strip_zeros s with
  | EmptyString => True
  | String c _ => Ascii.eqb c "0" = false
  end.
Proof.
  induction s as [|c s IH]; [exact I|].
  cbn [strip_zeros]. destruct (Ascii.eqb c "0") eqn:Hc; [exact IH | exact Hc].
Qed.

Lemma normal_digits_decimal (s : string) :
  all_digits s = true ->
  is_decimal (normal_digits s) = true
  /\ no_leading_zero (normal_digits s) = true
  /\ decimal_value 0 (normal_digits s) = decimal_value 0 s.
Proof.
  intros H. unfold normal_digits.
  pose proof (strip_zeros_all_digits s H) as Ha.
  pose proof (strip_zeros_head s) as Hh.
  pose proof (strip_zeros_value s H) as Hv.
  destruct (strip_zeros s) as [|c r]; [now rewrite <- Hv|].
  repeat split; [exact Ha | | exact Hv].
  cbn [no_leading_zero]. now rewrite Hh.
Qed.

(** The decimal rendering of the value of a run of digits is the run
    without its leading zeros. *)
Lemma decimal_rendering_value_normal (s : string) :
  all_digits s = true ->
  decimal_rendering (decimal_value 0 s) = normal_digits s.
Proof.
  intros H. destruct (normal_digits_decimal s H) as (Hd & Hz & Hv).
  rewrite <- Hv. now apply decimal_rendering_value.
Qed.

Lemma strip_zeros_length (s : string) :
  (String.length (strip_zeros s) <= String.length s)%nat.
Proof.
  induction s as [|c s IH]; [reflexivity|].
  cbn [strip_zeros]. destruct (Ascii.eqb c "0"); cbn [String.length]; lia.
Qed.

Lemma readable_inv (s : string) :
  readable s = true ->
  all_digits s = true /\ Z.of_nat (String.length s) <= Py.max_str_digits.
Proof.
  unfold readable. intros H. apply andb_prop in H as [Ha Hl].
  split; [exact Ha | now apply Z.leb_le].
Qed.

(** A readable run stays readable without its leading zeros. *)
Lemma normal_digits_readable (s : string) :
  readable s = true -> readable (normal_digits s) = true.
Proof.
  intros H. apply readable_inv in H as [Ha Hl]. unfold normal_digits.
  pose proof (strip_zeros_all_digits s Ha) as Hs.
  pose proof (strip_zeros_length s) as Hn.
  destruct (strip_zeros s) as [|c r] eqn:E; [reflexivity|].
  unfold readable. rewrite Hs. cbn [andb]. apply Z.leb_le. lia.
Qed.

Lemma append_inv_head (p a b : string) : p ++ a = p ++ b -> a = b.
Proof.
  induction p as [|c p IH]; cbn [String.append]; [tauto|].
  intros [= H]. now apply IH.
Qed.

Lemma take_digits_app (a x : string) :
  all_isdigit a = true -> starts_with_digit x = false ->
  take_digits (a ++ x) = a /\ drop_digits (a ++ x) = x.
Proof.
  intros Ha Hx. induction a as [|c a IH]; cbn [String.append].
  - destruct x as [|c x]; [now split|]. cbn [starts_with_digit] in Hx.
    cbn [take_digits drop_digits]. now rewrite Hx.
  - cbn [all_isdigit] in Ha. apply andb_prop in Ha as [Hc Ha].
    cbn [take_digits drop_digits]. rewrite Hc.
    destruct (IH Ha) as [-> ->]. now split.
Qed.

(** A run of digits followed by something that does not begin with a
    digit is split in one way only. *)
Lemma digits_app_inj (a b x y : string) :
  all_isdigit a = true -> all_isdigit b = true ->
  starts_with_digit x = false -> starts_with_digit y = false ->
  a ++ x = b ++ y -> a = b /\ x = y.
Proof.
  intros Ha Hb Hx Hy H.
  destruct (take_digits_app a x Ha Hx) as [H1 H2].
  destruct (take_digits_app b y Hb Hy) as [H3 H4].
  rewrite H in H1, H2. split; congruence.
Qed.

Lemma take_alphas_starts (c : ascii) (s t : string) :
  Py.isdigit c = false ->
  starts_with_digit (take_alphas (String c s) ++ t) = false.
Proof. intros Hc. cbn [take_alphas]. now rewrite Hc. Qed.

(** What the tokens of a string give back does not begin with a digit
    when the string does not. *)
Lemma concat_listify_starts (s : string) (l : list token) :
  starts_with_digit s = false -> listify s = Ok l ->
  starts_with_digit (concat_tokens l) = false.
Proof.
  destruct s as [|c s]; [now intros _ [= <-]|].
  cbn [starts_with_digit]. intros Hc. rewrite listify_step.
  destruct (readable _); [|discriminate].
  destruct (listify _) as [l'|]; [|discriminate]. cbn [bind]. intros [= <-].
  cbn [concat_tokens]. now apply take_alphas_starts.
Qed.

Lemma canonical_step_inv (c : ascii) (s : string) :
  let ds := take_digits (drop_alphas (String c s)) in
  ds <> EmptyString -> no_leading_zero ds = true ->
  canonical (drop_digits (drop_alphas (String c s))) = true ->
  canonical (String c s) = true.
Proof.
  cbv zeta. intros Hd Hz Hr.
  change (digit_runs_canonical false (String c s) = true).
  rewrite canonical_skip_alphas.
  destruct (drop_alphas (String c s)) as [|c1 r1]; [now elim Hd|].
  cbn [take_digits drop_digits] in *.
  destruct (Py.isdigit c1) eqn:Hc1; [|now elim Hd].
  cbn [digit_runs_canonical]. rewrite Hc1. cbn [orb].
  rewrite canonical_skip_digits, canonical_after_digits
    by apply drop_digits_starts.
  rewrite Hr, andb_true_r.
  cbn [no_leading_zero] in *. now rewrite take_digits_starts in Hz.
Qed.

(** One iteration of [listify], when it returns. *)
Lemma listify_step_Ok (c : ascii) (s : string) (l : list token) :
  listify (String c s) = Ok l ->
  readable (take_digits (drop_alphas (String c s))) = true
  /\ exists l', listify (drop_digits (drop_alphas (String c s))) = Ok l'
       /\ l = TStr (take_alphas (String c s))
               :: TInt (decimal_value 0 (take_digits (drop_alphas (String c s))))
               :: l'.
Proof.
  rewrite listify_step. destruct (readable _); [|discriminate].
  destruct (listify _) as [l'|]; [|discriminate]. cbn [bind].
  intros [= <-]. eauto.
Qed.

(** Only a canonical string comes back from its tokens. *)
Lemma listify_concat_only_canonical (s : string) :
  forall l, listify s = Ok l -> concat_tokens l = s -> canonical s = true.
Proof.
  induction s as [|c s IH] using listify_ind; [reflexivity|].
  intros l Hl Hcat.
  destruct (listify_step_Ok _ _ _ Hl) as (Hr & l' & Hl' & Hl0).
  apply readable_inv in Hr as [Ha _].
  pose proof (take_drop_alphas (String c s)) as E1.
  pose proof (take_drop_digits (drop_alphas (String c s))) as E2.
  pose proof (drop_digits_starts (drop_alphas (String c s))) as Hs.
  apply canonical_step_inv; cbv zeta.
  all: set (t := take_alphas (String c s)) in *.
  all: set (r := drop_alphas (String c s)) in *.
  all: set (ds := take_digits r) in *.
  all: set (r2 := drop_digits r) in *.
  all: subst l; cbn [concat_tokens] in Hcat.
  all: rewrite <- E1 in Hcat; apply append_inv_head in Hcat.
  all: rewrite <- E2 in Hcat.
  all: rewrite (decimal_rendering_value_normal _ Ha) in Hcat.
  all: destruct (normal_digits_decimal _ Ha) as (Hd & Hz & _).
  all: apply digits_app_inj in Hcat as [Hn Hrest];
    [ | apply all_digits_isdigit; now destruct (normal_digits ds)
      | now apply all_digits_isdigit
      | exact (concat_listify_starts _ _ Hs Hl') | exact Hs ].
  - rewrite <- Hn. now destruct (normal_digits ds).
  - now rewrite <- Hn.
  - now apply (IH l').
Qed.

(** A canonical string whose runs of digits are readable comes back from
    its tokens. *)
Lemma listify_concat_readable (s : string) :
  canonical s = true -> digit_runs_readable s = true ->
  exists l, listify s = Ok l /\ concat_tokens l = s.
Proof.
  induction s as [|c s IH] using listify_ind; intros Hc Hr.
  - exists []. split; reflexivity.
  - destruct (canonical_step c s Hc) as (Hne & Hz & Hrest).
    rewrite digit_runs_readable_step in Hr.
    apply andb_prop in Hr as [Hr Hr'].
    destruct (IH Hrest Hr') as (l & Hl & Hcat).
    rewrite listify_step, Hr, Hl. cbn [bind]. eexists. split; [reflexivity|].
    apply readable_inv in Hr as [Ha _].
    assert (Hd : is_decimal (take_digits (drop_alphas (String c s))) = true)
      by (destruct (take_digits (drop_alphas (String c s)));
          [now elim Hne | exact Ha]).
    cbn [concat_tokens]. rewrite Hcat, (decimal_rendering_value _ Hd Hz).
    now rewrite take_drop_digits, take_drop_alphas.
Qed.

Lemma revision_char_digit (c : ascii) :
  revision_char c = true -> Py.isdigit c = true -> Py.isdecimal c = true.
Proof.
  destruct c as [[] [] [] [] [] [] [] []]; vm_compute; congruence.
Qed.

(** In a string over the characters of a revision, every digit is one of
    0 to 9. *)
Lemma revision_chars_digits_decimal (s : string) :
  revision_chars s = true -> digits_decimal s = true.
Proof.
  induction s as [|c s IH]; [reflexivity|].
  cbn [revision_chars digits_decimal]. intros H.
  apply andb_prop in H as [Hc Hs]. rewrite (IH Hs), andb_true_r.
  destruct (Py.isdigit c) eqn:Hd; [|reflexivity].
  now rewrite (revision_char_digit _ Hc Hd).
Qed.

End Lossy.

(** * Properties of the specification *)

(** C1 (the code departs from the specification).  The tokens of "1.0" are
    a proper prefix of those of "1.0~rc1", whose next string token is "~rc";
    the revision comparison returns 1 (the longer string is greater), and so
    does the version comparison, where the specification has -1. *)
Theorem compare_tilde_suffix_ranks_higher :
  listify "1.0" = Ok [TStr EmptyString; TInt 1; TStr "."; TInt 0]
  /\ listify "1.0~rc1"
     = Ok [TStr EmptyString; TInt 1; TStr "."; TInt 0; TStr "~rc"; TInt 1]
  /\ compare_revision_strings "1.0~rc1" "1.0" = Ok 1
  /\ compare_revision_strings "1.0" "1.0~rc1" = Ok (-1)
  /\ compare_versions "1.0~rc1" "1.0" = Ok 1
  /\ compare_versions "1.0~" "1.0" = Ok 1.
Proof. vm_compute. repeat split. Qed.

(** C2 (the code departs from the specification).  For the control file with the headers
    [Package: foo], [Version: 1.0-1] and [Architecture: amd64], extraction
    succeeds and the header dictionary has the key "Package", as written,
    and no key "package"; [get_header] lowers the name it is asked for and
    not the keys, and returns the empty string for "package" and for
    "Package", where the specification has "foo". *)
Theorem get_header_misses_capitalised_name :
  let self := new_Dpkg foo_control false in
  fst (fst (message self [])) = Ok foo_control
  /\ (exists d, fst (fst (headers self [])) = Ok d
                /\ d !! "Package" = Some "foo" /\ d !! "package" = None)
  /\ fst (fst (get_header self "package" [])) = Ok EmptyString
  /\ fst (fst (get_header self "Package" [])) = Ok EmptyString.
Proof.
  cbv zeta. split; [reflexivity|]. split; [|split; vm_compute; reflexivity].
  eexists. split; [reflexivity|]. split; vm_compute; reflexivity.
Qed.

(** C3 (as amended).  [get_epoch] raises [DpkgVersionError] exactly when the
    string has a colon and [int] rejects the text before the first colon.
    When [int] accepts that text, the result is its value, which may be
    negative, with the text after the first colon; a run of digits 0 to 9
    is accepted, with the number it denotes, when it has no more than 4300
    digits, and rejected when it has more.  A string without a colon gives
    epoch 0 and the whole string back, and no other error is raised. *)
Theorem get_epoch_raises_iff_int_rejects_prefix :
  forall version_str prefix rest : string,
    Py.contains ":" prefix = false ->
    version_str = prefix ++ String ":" rest ->
    (get_epoch version_str = Raise DpkgVersionError
       <-> Py.int prefix = Raise ValueError)
    /\ (forall epoch, Py.int prefix = Ok epoch ->
          get_epoch version_str = Ok (epoch, rest))
    /\ (is_decimal prefix = true ->
        Z.of_nat (String.length prefix) <= Py.max_str_digits ->
          get_epoch version_str = Ok (decimal_value 0 prefix, rest))
    /\ (is_decimal prefix = true ->
        Py.max_str_digits < Z.of_nat (String.length prefix) ->
          get_epoch version_str = Raise DpkgVersionError)
    /\ (forall s, Py.contains ":" s = false -> get_epoch s = Ok (0, s))
    /\ (forall s e, get_epoch s = Raise e ->
          e = DpkgVersionError /\ Py.contains ":" s = true).
Proof.
  intros version_str prefix rest Hp ->.
  rewrite (get_epoch_split _ _ Hp).
  repeat split.
  - destruct (Py.int prefix) as [z|e] eqn:Hi; simpl; [discriminate|].
    intros _. now rewrite (int_raises_ValueError _ _ Hi).
  - now intros ->.
  - now intros epoch ->.
  - intros Hd Hlen. now rewrite (int_decimal _ Hd Hlen).
  - intros Hd Hlen.
    assert (Ha : all_digits prefix = true) by (now destruct prefix).
    rewrite int_digit_run;
      [| now apply all_digits_isdigit | now destruct prefix].
    unfold readable. rewrite Ha. cbn [andb].
    now apply Z.leb_gt in Hlen as ->.
  - apply get_epoch_no_colon.
  - revert H. unfold get_epoch.
    destruct (Py.index ":" s); [|discriminate].
    destruct (Py.int _) as [z|e'] eqn:Hi; simpl; [discriminate|].
    rewrite (int_raises_ValueError _ _ Hi). simpl. now intros [= <-].
  - destruct (Py.contains ":" s) eqn:Hc; [reflexivity|].
    rewrite (get_epoch_no_colon _ Hc) in H. discriminate.
Qed.

Lemma get_epoch_raises_iff_int_rejects_prefix_witness :
  Py.contains ":" "-1" = false
  /\ "-1:2.0" = "-1" ++ String ":" "2.0"
  /\ get_epoch "-1:2.0" = Ok (-1, "2.0").
Proof.
  split; [reflexivity|]. split; [reflexivity|].
  apply (get_epoch_raises_iff_int_rejects_prefix "-1:2.0" "-1" "2.0");
    reflexivity.
Defined.

(** C3 as it was stated fails: in "-1:2.0" the text before the colon is not
    a non-negative integer, and [get_epoch] returns epoch -1 instead of
    raising. *)
Lemma get_epoch_negative_prefix_not_rejected :
  "-1:2.0" = "-1" ++ String ":" "2.0"
  /\ Py.contains ":" "-1" = false
  /\ is_decimal "-1" = false
  /\ get_epoch "-1:2.0" = Ok (-1, "2.0")
  /\ get_epoch "-1:2.0" <> Raise DpkgVersionError.
Proof. vm_compute. repeat split. discriminate. Qed.

(** The three instances of the specification. *)
Lemma get_epoch_examples :
  get_epoch "1:2.0" = Ok (1, "2.0")
  /\ get_epoch "2.0" = Ok (0, "2.0")
  /\ get_epoch "nope:2.0" = Raise DpkgVersionError.
Proof. vm_compute. repeat split. Qed.

(** C4 (as amended).  For a revision string over the letters, the digits
    and [. - ~ +] in which every run of digits is written without a leading
    zero and has no more than 4300 digits, and which is empty or ends in a
    digit, the string tokens and the decimal renderings of the integer
    tokens of [listify], put together in order, give the string back.  No
    string that is not of this form comes back from its tokens
    ([listify_concat_only_canonical], [listify_Ok_readable]). *)
Theorem listify_concat_canonical :
  forall revision_str : string,
    revision_chars revision_str = true ->
    canonical revision_str = true ->
    digit_runs_short revision_str = true ->
    exists l, listify revision_str = Ok l /\ concat_tokens l = revision_str.
Proof.
  intros s Hchars Hc Hshort. apply listify_concat_readable; [exact Hc|].
  unfold digit_runs_readable.
  now rewrite (revision_chars_digits_decimal _ Hchars), Hshort.
Qed.

Lemma listify_concat_canonical_witness :
  revision_chars "1.2-3" = true
  /\ canonical "1.2-3" = true
  /\ digit_runs_short "1.2-3" = true
  /\ exists l, listify "1.2-3" = Ok l /\ concat_tokens l = "1.2-3".
Proof.
  split; [reflexivity|]. split; [reflexivity|]. split; [reflexivity|].
  apply (listify_concat_canonical "1.2-3"); reflexivity.
Defined.

(** C4 as it was stated fails: the tokens of "a" are "a" and 0 and give
    "a0", and the tokens of "1.01" are the empty string, 1, "." and 1 and
    give "1.1"; and [listify] raises [ValueError] on a run of 4301 digits,
    which has no tokens to put together. *)
Lemma listify_concat_not_lossless :
  listify "a" = Ok [TStr "a"; TInt 0]
  /\ concat_tokens [TStr "a"; TInt 0] = "a0"
  /\ "a0" <> "a"
  /\ listify "1.01" = Ok [TStr EmptyString; TInt 1; TStr "."; TInt 1]
  /\ concat_tokens [TStr EmptyString; TInt 1; TStr "."; TInt 1] = "1.1"
  /\ "1.1" <> "1.01"
  /\ revision_chars (replicate (Z.to_nat 4301) "9") = true
  /\ canonical (replicate (Z.to_nat 4301) "9") = true
  /\ listify (replicate (Z.to_nat 4301) "9") = Raise ValueError.
Proof. vm_compute. repeat split; discriminate. Qed.

(** C5.  Whenever [compare_versions a b] returns a number, so does
    [compare_versions b a], and it returns the opposite number; and a
    version compared with itself gives 0. *)
Theorem compare_versions_antisymmetric :
  forall (a b : string) (z : Z),
    compare_versions a b = Ok z ->
    compare_versions b a = Ok (- z)
    /\ compare_versions a a = Ok 0
    /\ compare_versions b b = Ok 0.
Proof.
  intros a b z H. split.
  - revert H. rewrite !compare_versions_eq, (String.eqb_sym b a).
    destruct (String.eqb a b); [now intros [= <-]|].
    destruct (split_full_version a) as [v1|]; [|discriminate].
    destruct (split_full_version b) as [v2|]; [|discriminate].
    cbn [bind]. apply compare_split_antisym.
  - unfold compare_versions. now rewrite !String.eqb_refl.
Qed.

Lemma compare_versions_antisymmetric_witness :
  compare_versions "1.0~rc1" "1.0a" = Ok (-1)
  /\ compare_versions "1.0a" "1.0~rc1" = Ok (- -1)
  /\ compare_versions "1.0~rc1" "1.0~rc1" = Ok 0
  /\ compare_versions "1.0a" "1.0a" = Ok 0.
Proof.
  split; [reflexivity|].
  apply (compare_versions_antisymmetric "1.0~rc1" "1.0a" (-1)). reflexivity.
Defined.

(** C6.  [dstringcmp] returns 0 on equal strings.  Where two strings first
    differ, with characters [c] and [d], the result is -1 when [c] is a
    tilde and 1 when [d] is; else -1 when only [c] is a letter and 1 when
    only [d] is; else -1 when [c] has the lower code and 1 otherwise.  When
    [a] is a proper prefix of [b], [a] is lesser (-1) unless the next
    character of [b] is a tilde, and then [b] is lesser (1); the other way
    round the results are the opposite. *)
Theorem dstringcmp_debian_lexical_rule :
  forall a b : string,
    (a = b -> dstringcmp a b = Ok 0)
    /\ (forall (p : string) (c d : ascii) (ra rb : string),
          c <> d -> a = p ++ String c ra -> b = p ++ String d rb ->
          dstringcmp a b =
            Ok (if Ascii.eqb c "~" then -1
                else if Ascii.eqb d "~" then 1
                else if Py.isalpha c && negb (Py.isalpha d) then -1
                else if negb (Py.isalpha c) && Py.isalpha d then 1
                else if Py.ord c <? Py.ord d then -1
                else 1))
    /\ (forall (c : ascii) (r : string),
          b = a ++ String c r ->
          dstringcmp a b = Ok (if Ascii.eqb c "~" then 1 else -1)
          /\ dstringcmp b a = Ok (if Ascii.eqb c "~" then -1 else 1)).
Proof.
  intros a b. split; [|split].
  - intros ->. unfold dstringcmp. now rewrite String.eqb_refl.
  - intros p c d ra rb Hne -> ->. rewrite dstringcmp_walk_eq.
    pose proof (append_cons_neq p c d ra rb Hne) as H.
    apply String.eqb_neq in H as ->.
    rewrite dstringcmp_walk_prefix. now apply dstringcmp_walk_differ.
  - intros c r ->. rewrite !dstringcmp_walk_eq.
    pose proof (append_neq_self a c r) as H.
    rewrite (String.eqb_sym (a ++ String c r) a).
    apply String.eqb_neq in H as ->.
    split.
    + rewrite <- (append_empty_r a) at 1. rewrite dstringcmp_walk_prefix.
      cbn [dstringcmp_walk]. now destruct (Ascii.eqb c "~").
    + rewrite <- (append_empty_r a) at 2. rewrite dstringcmp_walk_prefix.
      cbn [dstringcmp_walk]. now destruct (Ascii.eqb c "~").
Qed.

Lemma dstringcmp_debian_lexical_rule_witness :
  "~"%char <> "a"%char
  /\ ".~rc" = "." ++ String "~" "rc"
  /\ ".a" = "." ++ String "a" EmptyString
  /\ ".~" = "." ++ String "~" EmptyString
  /\ dstringcmp "~rc" "~rc" = Ok 0
  /\ dstringcmp ".~rc" ".a" = Ok (-1)
  /\ dstringcmp "." ".~" = Ok 1
  /\ dstringcmp ".~" "." = Ok (-1).
Proof.
  split; [discriminate|]. do 3 (split; [reflexivity|]).
  split; [|split].
  - apply (proj1 (dstringcmp_debian_lexical_rule "~rc" "~rc")). reflexivity.
  - apply (proj1 (proj2 (dstringcmp_debian_lexical_rule ".~rc" ".a"))
             "." "~"%char "a"%char "rc" EmptyString);
      [discriminate | reflexivity | reflexivity].
  - apply (proj2 (proj2 (dstringcmp_debian_lexical_rule "." ".~"))
             "~"%char EmptyString).
    reflexivity.
Defined.

(** C7 (the code departs from the specification).  For a control file without
    [Architecture], [_process_dpkg_file] stops in the debugger before it
    looks at the permissive flag.  With no command to read, or with [quit],
    it ends in [BdbQuit] in both modes: permissive parsing does not succeed
    and strict parsing does not raise [DpkgMissingRequiredHeaderError].  Only
    when the operator resumes the program does the permissive mode return
    the message and the strict mode raise the error that the specification
    names. *)
Theorem process_dpkg_file_stops_in_debugger :
  let control := [("Package", "foo"); ("Version", "1.0-1")] in
  some_required_missing control = true
  /\ _process_dpkg_file true control [] = (Raise BdbQuit, [])
  /\ _process_dpkg_file false control [] = (Raise BdbQuit, [])
  /\ _process_dpkg_file true control [PdbQuit] = (Raise BdbQuit, [])
  /\ _process_dpkg_file true control [PdbContinue] = (Ok control, [])
  /\ _process_dpkg_file false control [PdbContinue]
     = (Raise DpkgMissingRequiredHeaderError, []).
Proof. vm_compute. repeat split. Qed.

(** C8.  A version without a colon compares equal to the same version with
    the epoch "0:" in front, and a version without a hyphen that splits
    without error compares equal to the same version with the debian
    revision "-0" at the end; so for "1.0" against "0:1.0" and "1.0-0". *)
Theorem compare_versions_interpolated_zero :
  forall v : string,
    (Py.contains ":" v = false ->
       compare_versions ("0:" ++ v) v = Ok 0
       /\ compare_versions v ("0:" ++ v) = Ok 0)
    /\ (Py.contains "-" v = false ->
        (exists t, split_full_version v = Ok t) ->
          compare_versions (v ++ "-0") v = Ok 0
          /\ compare_versions v (v ++ "-0") = Ok 0)
    /\ compare_versions "1.0" "1.0-0" = Ok 0
    /\ compare_versions "0:1.0" "1.0" = Ok 0.
Proof.
  intros v. split; [|split; [|split; reflexivity]].
  - intros Hc.
    assert (H : split_full_version ("0:" ++ v) = split_full_version v).
    { unfold split_full_version.
      now rewrite get_epoch_zero, (get_epoch_no_colon _ Hc). }
    rewrite !compare_versions_eq, H.
    destruct (split_full_version v) as [t|] eqn:Ht.
    + cbn [bind]. rewrite compare_split_refl.
      split; now destruct (String.eqb _ _).
    + unfold split_full_version in Ht.
      rewrite (get_epoch_no_colon _ Hc) in Ht. cbn [bind] in Ht.
      destruct (get_upstream v). discriminate.
  - intros Hh [t Ht].
    assert (H : split_full_version (v ++ "-0") = Ok t).
    { revert Ht. unfold split_full_version.
      destruct (get_epoch v) as [[epoch full_ver]|] eqn:He; [|discriminate].
      rewrite (get_epoch_app_zero _ _ _ He). cbn [bind].
      pose proof (get_epoch_no_hyphen _ _ _ Hh He) as Hf.
      now rewrite (get_upstream_zero _ Hf), (get_upstream_no_hyphen _ Hf). }
    rewrite !compare_versions_eq, H, Ht. cbn [bind].
    rewrite compare_split_refl. split; now destruct (String.eqb _ _).
Qed.

Lemma compare_versions_interpolated_zero_witness :
  Py.contains ":" "1.0" = false
  /\ Py.contains "-" "1:1.0" = false
  /\ (exists t, split_full_version "1:1.0" = Ok t)
  /\ compare_versions ("0:" ++ "1.0") "1.0" = Ok 0
  /\ compare_versions ("1:1.0" ++ "-0") "1:1.0" = Ok 0.
Proof.
  split; [reflexivity|]. split; [reflexivity|].
  split; [eexists; reflexivity|]. split.
  - apply (proj1 (compare_versions_interpolated_zero "1.0")). reflexivity.
  - apply (proj1 (proj2 (compare_versions_interpolated_zero "1:1.0")));
      [reflexivity | eexists; reflexivity].
Defined.




(** C10.  [compare_versions s s] returns 0 for every string [s], also for
    one that does not split: "nope:1" makes [split_full_version] raise, and
    makes the comparison with another string raise, but compares equal to
    itself. *)
Theorem compare_versions_same_string :
  forall s : string,
    compare_versions s s = Ok 0
    /\ split_full_version "nope:1" = Raise DpkgVersionError
    /\ compare_versions "nope:1" "1" = Raise DpkgVersionError
    /\ compare_versions "nope:1" "nope:1" = Ok 0.
Proof.
  intros s. split; [|repeat split].
  unfold compare_versions. now rewrite String.eqb_refl.
Qed.

(** * Further properties of the code *)

(** ** The lexical comparison is a total order *)

Lemma neq_ord (c d : ascii) : c <> d -> Py.ord c <> Py.ord d.
Proof. intros Hne H. now apply Hne, ord_inj. Qed.

(** The order of the characters is transitive, whatever the letters are:
    the tilde is asked for first, then the class, then the code. *)
Lemma char_order_trans (x y z : ascii) :
  x <> y -> y <> z ->
  char_order x y = -1 -> char_order y z = -1 ->
  x <> z /\ char_order x z = -1.
Proof.
  intros Hxy Hyz H1 H2.
  assert (Hxz : x <> z).
  { intros ->. rewrite (char_order_antisym _ _ Hyz), H2 in H1. discriminate. }
  split; [exact Hxz|].
  apply neq_ord in Hxy, Hyz, Hxz. revert H1 H2. unfold char_order.
  destruct (Ascii.eqb x "~"); [reflexivity|].
  destruct (Ascii.eqb y "~"); [discriminate|].
  destruct (Ascii.eqb z "~"); [discriminate|].
  destruct (Py.isalpha x), (Py.isalpha y), (Py.isalpha z); cbn [andb negb];
    destruct (Z.ltb_spec (Py.ord x) (Py.ord y));
    destruct (Z.ltb_spec (Py.ord y) (Py.ord z));
    destruct (Z.ltb_spec (Py.ord x) (Py.ord z));
    intros; try discriminate; try reflexivity; lia.
Qed.

Lemma char_order_tilde_l (d : ascii) : d <> "~"%char -> char_order "~" d = -1.
Proof. reflexivity. Qed.

Lemma char_order_tilde_r (c : ascii) : c <> "~"%char -> char_order c "~" = 1.
Proof.
  intros H. unfold char_order. apply Ascii.eqb_neq in H. now rewrite H.
Qed.

Lemma dstringcmp_walk_refl_raises (a : string) :
  dstringcmp_walk a a = Raise IndexError.
Proof.
  induction a as [|c a IH]; [reflexivity|]. now rewrite dstringcmp_walk_same.
Qed.

Lemma dstringcmp_walk_nil_l (y : ascii) (b : string) :
  dstringcmp_walk EmptyString (String y b)
  = if Ascii.eqb y "~" then Ok 1 else Ok (-1).
Proof. reflexivity. Qed.

Lemma dstringcmp_walk_nil_r (x : ascii) (a : string) :
  dstringcmp_walk (String x a) EmptyString
  = if Ascii.eqb x "~" then Ok (-1) else Ok 1.
Proof. reflexivity. Qed.

Lemma dstringcmp_walk_trans (a : string) :
  forall b c, dstringcmp_walk a b = Ok (-1) -> dstringcmp_walk b c = Ok (-1) ->
              dstringcmp_walk a c = Ok (-1).
Proof.
  induction a as [|x a IH]; intros [|y b] [|z c];
    rewrite ?dstringcmp_walk_nil_l, ?dstringcmp_walk_nil_r;
    try (cbn [dstringcmp_walk]; discriminate);
    try (intros _; cbn [dstringcmp_walk]; discriminate).
  - destruct (Ascii.eqb y "~"); discriminate.
  - destruct (Ascii.eqb_spec y "~") as [->|Hy]; [discriminate|]. intros _.
    destruct (Ascii.eqb_spec z "~") as [->|Hz]; [|reflexivity].
    rewrite (dstringcmp_walk_differ y "~") by exact Hy.
    now rewrite (char_order_tilde_r y Hy).
  - destruct (Ascii.eqb_spec x "~") as [->|Hx]; [|discriminate]. intros _.
    destruct (Ascii.eqb_spec z "~") as [->|Hz]; [discriminate|]. intros _.
    now rewrite (dstringcmp_walk_differ "~" z) by congruence.
  - destruct (Ascii.eqb_spec y "~") as [->|Hy]; [|discriminate].
    destruct (Ascii.eqb_spec x "~") as [->|Hx]; [reflexivity|].
    rewrite (dstringcmp_walk_differ x "~") by exact Hx.
    now rewrite (char_order_tilde_r x Hx).
  - destruct (Ascii.eqb_spec x y) as [->|Hxy];
      destruct (Ascii.eqb_spec y z) as [->|Hyz].
    + rewrite !dstringcmp_walk_same. apply IH.
    + rewrite dstringcmp_walk_same, !(dstringcmp_walk_differ y z) by exact Hyz.
      auto.
    + rewrite dstringcmp_walk_same, !(dstringcmp_walk_differ x z) by exact Hxy.
      auto.
    + rewrite (dstringcmp_walk_differ x y), (dstringcmp_walk_differ y z)
        by assumption.
      intros [= H1] [= H2].
      destruct (char_order_trans x y z Hxy Hyz H1 H2) as [Hxz H3].
      now rewrite (dstringcmp_walk_differ x z), H3 by exact Hxz.
Qed.
(** X1.  [dstringcmp] never raises: it returns 0 exactly on equal strings
    and 1 or -1 on different ones. *)
Theorem dstringcmp_zero_iff_equal :
  forall a b : string,
    exists z, dstringcmp a b = Ok z
              /\ (z = 0 \/ z = 1 \/ z = -1)
              /\ (z = 0 <-> a = b).
Proof.
  intros a b. rewrite dstringcmp_walk_eq.
  destruct (String.eqb_spec a b) as [->|Hne].
  - exists 0. repeat split; auto.
  - destruct (dstringcmp_walk_total a b Hne) as (z & -> & Hz).
    exists z. repeat split; [tauto | | congruence].
    intros ->. destruct Hz; discriminate.
Qed.

(** X2.  [dstringcmp] is transitive: when [a] sorts before [b] and [b]
    before [c], [a] sorts before [c]. *)
Theorem dstringcmp_transitive :
  forall a b c : string,
    dstringcmp a b = Ok (-1) -> dstringcmp b c = Ok (-1) ->
    dstringcmp a c = Ok (-1).
Proof.
  intros a b c. rewrite !dstringcmp_walk_eq.
  destruct (String.eqb_spec a b) as [_|Hab]; [discriminate|].
  destruct (String.eqb_spec b c) as [_|Hbc]; [discriminate|].
  intros H1 H2. pose proof (dstringcmp_walk_trans a b c H1 H2) as H.
  destruct (String.eqb_spec a c) as [->|_]; [|exact H].
  rewrite dstringcmp_walk_refl_raises in H. discriminate.
Qed.

Lemma dstringcmp_transitive_witness :
  dstringcmp "~a" EmptyString = Ok (-1) /\ dstringcmp EmptyString "a" = Ok (-1)
  /\ dstringcmp "~a" "a" = Ok (-1).
Proof.
  split; [reflexivity|]. split; [reflexivity|].
  apply (dstringcmp_transitive "~a" EmptyString "a"); reflexivity.
Defined.

(** ** The tokenizer, further *)

Lemma take_alphas_digit_free (s : string) : digit_free (take_alphas s) = true.
Proof.
  induction s as [|c s IH]; [reflexivity|]. cbn [take_alphas].
  destruct (Py.isdigit c) eqn:Hc; [reflexivity|].
  cbn [digit_free]. now rewrite Hc, IH.
Qed.


(** X3.  [get_alphas] cuts the string in two: a first part without digits,
    and a rest that is empty or begins with a digit, where a digit is a
    character for which [isdigit] holds. *)
Theorem get_alphas_splits :
  forall revision_str : string,
    fst (get_alphas revision_str) ++ snd (get_alphas revision_str)
      = revision_str
    /\ digit_free (fst (get_alphas revision_str)) = true
    /\ (snd (get_alphas revision_str) = EmptyString
        \/ starts_with_digit (snd (get_alphas revision_str)) = true).
Proof.
  intros s. rewrite get_alphas_eq. cbn [fst snd]. split; [|split].
  - apply take_drop_alphas.
  - apply take_alphas_digit_free.
  - apply drop_alphas_starts.
Qed.







Lemma take_alphas_app (t r : string) :
  digit_free t = true -> starts_with_digit r = true ->
  take_alphas (t ++ r) = t /\ drop_alphas (t ++ r) = r.
Proof.
  intros Ht Hr. induction t as [|c t IH]; cbn [String.append].
  - destruct r as [|d r]; [discriminate|]. cbn [starts_with_digit] in Hr.
    cbn [take_alphas drop_alphas]. now rewrite Hr.
  - cbn [digit_free] in Ht. apply andb_prop in Ht as [Hc Ht].
    apply negb_true_iff in Hc. cbn [take_alphas drop_alphas]. rewrite Hc.
    destruct (IH Ht) as [-> ->]. now split.
Qed.

(** The tokens of a string without digits, a readable run of digits and a
    rest that does not begin with a digit. *)
Lemma listify_block (t nd out : string) :
  digit_free t = true -> nd <> EmptyString -> readable nd = true ->
  starts_with_digit out = false ->
  listify (t ++ nd ++ out) =
  let* rest := listify out in
  Ok (TStr t :: TInt (decimal_value 0 nd) :: rest).
Proof.
  intros Ht Hne Hnd Hout.
  assert (Hall : all_isdigit nd = true)
    by (apply all_digits_isdigit; now apply readable_inv in Hnd).
  assert (Hs : starts_with_digit (nd ++ out) = true).
  { destruct nd as [|d nd]; [now elim Hne|].
    cbn [String.append starts_with_digit].
    cbn [all_isdigit] in Hall. now apply andb_prop in Hall. }
  destruct (take_alphas_app t (nd ++ out) Ht Hs) as [Ha Hd].
  destruct (take_digits_app nd out Hall Hout) as [Ha' Hd'].
  destruct (t ++ nd ++ out) as [|c s] eqn:E.
  - destruct t; [destruct nd; [now elim Hne | discriminate] | discriminate].
  - rewrite listify_step, Ha, Hd, Ha', Hd', Hnd. reflexivity.
Qed.

(** X6.  Putting the tokens that [listify] returns for a string together
    gives a string with the same tokens: [concat_tokens] chooses one string
    among those that [listify] does not tell apart. *)
Theorem listify_concat_tokens :
  forall (revision_str : string) (l : list token),
    listify revision_str = Ok l -> listify (concat_tokens l) = Ok l.
Proof.
  induction revision_str as [|c s IH] using listify_ind; intros l Hl.
  - now injection Hl as <-.
  - destruct (listify_step_Ok _ _ _ Hl) as (Hr & l' & Hl' & ->).
    cbn [concat_tokens].
    destruct (readable_inv _ Hr) as [Ha _].
    rewrite (decimal_rendering_value_normal _ Ha).
    destruct (normal_digits_decimal _ Ha) as (Hd & _ & Hv).
    rewrite listify_block.
    + rewrite (IH l' Hl'). cbn [bind]. now rewrite Hv.
    + apply take_alphas_digit_free.
    + now destruct (normal_digits _).
    + now apply normal_digits_readable.
    + exact (concat_listify_starts _ _ (drop_digits_starts _) Hl').
Qed.

Lemma listify_concat_tokens_witness :
  listify "a.007" = Ok [TStr "a."; TInt 7]
  /\ concat_tokens [TStr "a."; TInt 7] = "a.7"
  /\ listify (concat_tokens [TStr "a."; TInt 7]) = Ok [TStr "a."; TInt 7].
Proof.
  split; [reflexivity|]. split; [reflexivity|].
  apply (listify_concat_tokens "a.007"). reflexivity.
Defined.

Lemma compare_items_walk_nonzero (l1 l2 : list token) (z : Z) :
  compare_items_walk l1 l2 = Ok z -> z <> 0.
Proof.
  revert l2; induction l1 as [|t1 l1 IH]; intros [|t2 l2];
    cbn [compare_items_walk]; try (intros [= <-]; discriminate).
  destruct (isinstance_class_of t1 t2) eqn:Hc; cbn [negb]; [|discriminate].
  destruct (token_eqb t1 t2) eqn:He; [apply IH|].
  destruct (compare_item_returns _ _ Hc He) as (y & -> & Hy & _).
  intros [= <-]. destruct Hy; lia.
Qed.

Lemma compare_token_lists_zero (l1 l2 : list token) :
  compare_token_lists l1 l2 = Ok 0 <-> l1 = l2.
Proof.
  unfold compare_token_lists.
  destruct (token_list_eqb l1 l2) eqn:He.
  - apply token_list_eqb_eq in He as ->. tauto.
  - split.
    + intros H. now apply compare_items_walk_nonzero in H.
    + intros ->. now rewrite (proj2 (token_list_eqb_eq l2 l2) eq_refl) in He.
Qed.

(** X7.  Two revision strings that [listify] reads compare equal exactly
    when they have the same tokens; so "1.0" and "1.00", or "a" and "a0",
    are equal revisions. *)
Theorem compare_revision_strings_zero_iff :
  forall (rev1 rev2 : string) (list1 list2 : list token),
    listify rev1 = Ok list1 -> listify rev2 = Ok list2 ->
    (compare_revision_strings rev1 rev2 = Ok 0 <-> list1 = list2)
    /\ compare_revision_strings "1.0" "1.00" = Ok 0
    /\ compare_revision_strings "a" "a0" = Ok 0.
Proof.
  intros rev1 rev2 l1 l2 H1 H2. split; [|split; reflexivity].
  rewrite (compare_revision_strings_tokens _ _ _ _ H1 H2).
  apply compare_token_lists_zero.
Qed.

Lemma compare_revision_strings_zero_iff_witness :
  listify "1.0" = Ok [TStr EmptyString; TInt 1; TStr "."; TInt 0]
  /\ listify "1.00" = Ok [TStr EmptyString; TInt 1; TStr "."; TInt 0]
  /\ (compare_revision_strings "1.0" "1.00" = Ok 0
      <-> [TStr EmptyString; TInt 1; TStr "."; TInt 0]
          = [TStr EmptyString; TInt 1; TStr "."; TInt 0]).
Proof.
  split; [reflexivity|]. split; [reflexivity|].
  apply (compare_revision_strings_zero_iff "1.0" "1.00"); reflexivity.
Defined.

Lemma listify_decimal (d : string) :
  is_decimal d = true -> Z.of_nat (String.length d) <= Py.max_str_digits ->
  listify d = Ok [TStr EmptyString; TInt (decimal_value 0 d)].
Proof.
  intros Hd Hlen. rewrite <- (append_empty_r d) at 1.
  change (listify (EmptyString ++ d ++ EmptyString)
          = Ok [TStr EmptyString; TInt (decimal_value 0 d)]).
  rewrite listify_block; [reflexivity | reflexivity | now destruct d | |
                          reflexivity].
  unfold readable. apply andb_true_intro. split; [now destruct d|].
  now apply Z.leb_le.
Qed.

(** X8.  Runs of the digits 0 to 9, of no more than 4300 digits, compare
    as numbers, not as text: the result is the sign of the difference of
    the numbers they denote, so "9" is less than "10" and "007" equals
    "7". *)
Theorem compare_revision_strings_numeric :
  forall d1 d2 : string,
    is_decimal d1 = true -> is_decimal d2 = true ->
    Z.of_nat (String.length d1) <= Py.max_str_digits ->
    Z.of_nat (String.length d2) <= Py.max_str_digits ->
    compare_revision_strings d1 d2
    = Ok (Z.sgn (decimal_value 0 d1 - decimal_value 0 d2)).
Proof.
  intros d1 d2 H1 H2 L1 L2.
  rewrite (compare_revision_strings_tokens _ _ _ _
             (listify_decimal _ H1 L1) (listify_decimal _ H2 L2)).
  unfold compare_token_lists.
  cbn [token_list_eqb token_eqb compare_items_walk isinstance_class_of negb
       compare_item].
  rewrite String.eqb_refl, andb_true_r. cbn [andb].
  rewrite Z.gtb_ltb.
  destruct (Z.eqb_spec (decimal_value 0 d1) (decimal_value 0 d2)) as [->|Hne].
  - now rewrite Z.sub_diag.
  - destruct (Z.ltb_spec (decimal_value 0 d2) (decimal_value 0 d1));
      destruct (Z.ltb_spec (decimal_value 0 d1) (decimal_value 0 d2));
      try lia; f_equal; lia.
Qed.

Lemma compare_revision_strings_numeric_witness :
  is_decimal "9" = true /\ is_decimal "10" = true
  /\ Z.of_nat (String.length "9") <= Py.max_str_digits
  /\ Z.of_nat (String.length "10") <= Py.max_str_digits
  /\ compare_revision_strings "9" "10" = Ok (-1).
Proof.
  split; [reflexivity|]. split; [reflexivity|].
  split; [apply Z.leb_le; reflexivity|].
  split; [apply Z.leb_le; reflexivity|].
  apply (compare_revision_strings_numeric "9" "10");
    [reflexivity | reflexivity | apply Z.leb_le; reflexivity
     | apply Z.leb_le; reflexivity].
Defined.

(** ** The comparison is transitive *)

Lemma dstringcmp_lt_trans (a b c : string) :
  dstringcmp a b = Ok (-1) -> dstringcmp b c = Ok (-1) ->
  dstringcmp a c = Ok (-1) /\ a <> c.
Proof.
  rewrite !dstringcmp_walk_eq.
  destruct (String.eqb_spec a b) as [_|Hab]; [discriminate|].
  destruct (String.eqb_spec b c) as [_|Hbc]; [discriminate|].
  intros H1 H2. pose proof (dstringcmp_walk_trans a b c H1 H2) as H.
  destruct (String.eqb_spec a c) as [->|Hac]; [|now split].
  rewrite dstringcmp_walk_refl_raises in H. discriminate.
Qed.

Lemma try_except_dstringcmp (s s2 : string) :
  try_except (dstringcmp s s2) IndexError (Ok 1) = dstringcmp s s2.
Proof. now destruct (dstringcmp_total s s2) as (z & -> & _). Qed.

Lemma isinstance_class_of_trans (t1 t2 t3 : token) :
  isinstance_class_of t1 t2 = true -> isinstance_class_of t2 t3 = true ->
  isinstance_class_of t1 t3 = true.
Proof. now destruct t1, t2, t3. Qed.

Lemma compare_item_trans (t1 t2 t3 : token) :
  compare_item t1 t2 = Some (Ok (-1)) -> compare_item t2 t3 = Some (Ok (-1)) ->
  compare_item t1 t3 = Some (Ok (-1)) /\ token_eqb t1 t3 = false.
Proof.
  destruct t1 as [s1|n1], t2 as [s2|n2], t3 as [s3|n3]; cbn [compare_item];
    try discriminate.
  - rewrite !try_except_dstringcmp. intros [= H1] [= H2].
    destruct (dstringcmp_lt_trans _ _ _ H1 H2) as [H Hne].
    rewrite H. split; [reflexivity|]. cbn [token_eqb].
    now apply String.eqb_neq.
  - rewrite !Z.gtb_ltb. cbn [token_eqb].
    destruct (Z.ltb_spec n2 n1), (Z.ltb_spec n1 n2); try discriminate;
      destruct (Z.ltb_spec n3 n2), (Z.ltb_spec n2 n3); try discriminate;
      intros _ _.
    destruct (Z.ltb_spec n3 n1), (Z.ltb_spec n1 n3); try lia.
    split; [reflexivity | apply Z.eqb_neq; lia].
Qed.

Lemma compare_items_walk_values (l1 l2 : list token) (z : Z) :
  compare_items_walk l1 l2 = Ok z -> z = 1 \/ z = -1.
Proof.
  revert l2; induction l1 as [|t1 l1 IH]; intros [|t2 l2];
    cbn [compare_items_walk]; try (intros [= <-]; auto).
  destruct (isinstance_class_of t1 t2) eqn:Hc; cbn [negb]; [|discriminate].
  destruct (token_eqb t1 t2) eqn:He; [apply IH|].
  destruct (compare_item_returns _ _ Hc He) as (y & -> & Hy & _).
  now intros [= <-].
Qed.

Lemma compare_items_walk_trans (l1 : list token) :
  forall l2 l3,
    compare_items_walk l1 l2 = Ok (-1) -> compare_items_walk l2 l3 = Ok (-1) ->
    compare_items_walk l1 l3 = Ok (-1).
Proof.
  induction l1 as [|t1 l1 IH]; intros [|t2 l2] [|t3 l3];
    cbn [compare_items_walk]; try discriminate; try reflexivity.
  destruct (isinstance_class_of t1 t2) eqn:C12; cbn [negb]; [|discriminate].
  destruct (isinstance_class_of t2 t3) eqn:C23; cbn [negb]; [|discriminate].
  rewrite (isinstance_class_of_trans _ _ _ C12 C23). cbn [negb].
  destruct (token_eqb t1 t2) eqn:E12; destruct (token_eqb t2 t3) eqn:E23.
  - apply token_eqb_eq in E12 as ->. rewrite E23. apply IH.
  - apply token_eqb_eq in E12 as ->. rewrite E23.
    destruct (compare_item_returns _ _ C23 E23) as (y & -> & _ & _). auto.
  - apply token_eqb_eq in E23 as ->. rewrite E12.
    destruct (compare_item_returns _ _ C12 E12) as (x & -> & _ & _). auto.
  - destruct (compare_item_returns _ _ C12 E12) as (x & H12 & _ & _).
    destruct (compare_item_returns _ _ C23 E23) as (y & H23 & _ & _).
    rewrite H12, H23. intros [= ->] [= ->].
    destruct (compare_item_trans _ _ _ H12 H23) as [H13 E13].
    now rewrite E13, H13.
Qed.

Lemma compare_token_lists_trans (l1 l2 l3 : list token) (x y : Z) :
  compare_token_lists l1 l2 = Ok x -> compare_token_lists l2 l3 = Ok y ->
  x <= 0 -> y <= 0 ->
  exists z, compare_token_lists l1 l3 = Ok z
            /\ z <= 0 /\ (z = 0 <-> x = 0 /\ y = 0).
Proof.
  unfold compare_token_lists.
  destruct (token_list_eqb l1 l2) eqn:E12.
  { apply token_list_eqb_eq in E12 as ->. intros [= <-] H _ Hy.
    destruct (token_list_eqb l2 l3); exists y; (split; [exact H|]);
      (split; [exact Hy | tauto]). }
  destruct (token_list_eqb l2 l3) eqn:E23.
  { apply token_list_eqb_eq in E23 as ->. intros H [= <-] Hx _.
    rewrite E12. exists x. split; [exact H|]. split; [exact Hx | tauto]. }
  intros H1 H2 Hx Hy.
  destruct (compare_items_walk_values _ _ _ H1) as [->| ->]; [lia|].
  destruct (compare_items_walk_values _ _ _ H2) as [->| ->]; [lia|].
  pose proof (compare_items_walk_trans _ _ _ H1 H2) as H13.
  destruct (token_list_eqb l1 l3) eqn:E13.
  - apply token_list_eqb_eq in E13 as ->.
    assert (l3 <> l2)
      by (intros ->; now rewrite (proj2 (token_list_eqb_eq l2 l2) eq_refl) in E12).
    rewrite (compare_items_walk_antisym _ _ _ H H1) in H2. discriminate.
  - exists (-1). split; [exact H13|]. split; lia.
Qed.

Lemma compare_revision_strings_trans (r1 r2 r3 : string) (x y : Z) :
  compare_revision_strings r1 r2 = Ok x ->
  compare_revision_strings r2 r3 = Ok y ->
  x <= 0 -> y <= 0 ->
  exists z, compare_revision_strings r1 r3 = Ok z
            /\ z <= 0 /\ (z = 0 <-> x = 0 /\ y = 0).
Proof.
  intros H12 H23 Hx Hy.
  destruct (compare_revision_strings_Ok_inv _ _ _ H12)
    as [[-> ->]|(l1 & l2 & H1 & H2 & C12)].
  { exists y. split; [exact H23|]. split; [exact Hy | tauto]. }
  destruct (compare_revision_strings_Ok_inv _ _ _ H23)
    as [[-> ->]|(l2' & l3 & H2' & H3 & C23)].
  { exists x. split; [exact H12|]. split; [exact Hx | tauto]. }
  assert (l2' = l2) as -> by congruence.
  rewrite (compare_revision_strings_tokens _ _ _ _ H1 H3).
  exact (compare_token_lists_trans _ _ _ _ _ C12 C23 Hx Hy).
Qed.

(** How [compare_split] comes to a result: by the epochs, or else by the
    upstream revisions, or else by the debian revisions. *)
Lemma compare_split_Ok_inv (e1 e2 : Z) (u1 u2 d1 d2 : string) (x : Z) :
  compare_split (e1, u1, d1) (e2, u2, d2) = Ok x ->
  (e1 < e2 /\ x = -1) \/ (e2 < e1 /\ x = 1)
  \/ (e1 = e2
      /\ exists xu, compare_revision_strings u1 u2 = Ok xu
           /\ ((xu <> 0 /\ x = xu)
               \/ (xu = 0 /\ compare_revision_strings d1 d2 = Ok x))).
Proof.
  unfold compare_split. rewrite Z.gtb_ltb.
  destruct (Z.ltb_spec e1 e2) as [L1|L1]; [intros [= <-]; auto|].
  destruct (Z.ltb_spec e2 e1) as [L2|L2]; [intros [= <-]; auto|].
  intros H. right. right. split; [lia|].
  destruct (compare_revision_strings u1 u2) as [xu|]; [|discriminate].
  cbn [bind] in H. exists xu. split; [reflexivity|].
  destruct (Z.eqb_spec xu 0) as [E|Hne]; cbn [negb] in H.
  - right. split; [exact E|].
    destruct (compare_revision_strings d1 d2) as [xd|]; [|discriminate].
    cbn [bind] in H.
    destruct (Z.eqb_spec xd 0) as [E'|]; cbn [negb] in H; congruence.
  - left. split; [exact Hne | congruence].
Qed.

Lemma compare_split_by_epoch (e1 e2 : Z) (u1 u2 d1 d2 : string) :
  e1 < e2 -> compare_split (e1, u1, d1) (e2, u2, d2) = Ok (-1).
Proof.
  intros H. unfold compare_split. now apply Z.ltb_lt in H as ->.
Qed.

Lemma compare_split_by_upstream (e : Z) (u1 u2 d1 d2 : string) (xu : Z) :
  compare_revision_strings u1 u2 = Ok xu -> xu <> 0 ->
  compare_split (e, u1, d1) (e, u2, d2) = Ok xu.
Proof.
  intros Hu Hne. unfold compare_split.
  rewrite Z.gtb_ltb, Z.ltb_irrefl, Hu. cbn [bind].
  now apply Z.eqb_neq in Hne as ->.
Qed.

Lemma compare_split_by_debian (e : Z) (u1 u2 d1 d2 : string) (xd : Z) :
  compare_revision_strings u1 u2 = Ok 0 ->
  compare_revision_strings d1 d2 = Ok xd ->
  compare_split (e, u1, d1) (e, u2, d2) = Ok xd.
Proof.
  intros Hu Hd. unfold compare_split.
  rewrite Z.gtb_ltb, Z.ltb_irrefl, Hu, Hd. cbn [bind negb Z.eqb].
  now destruct (Z.eqb_spec xd 0) as [->|].
Qed.

Lemma compare_split_trans (v1 v2 v3 : Z * string * string) (x y : Z) :
  compare_split v1 v2 = Ok x -> compare_split v2 v3 = Ok y ->
  x <= 0 -> y <= 0 ->
  exists z, compare_split v1 v3 = Ok z
            /\ z <= 0 /\ (z = 0 <-> x = 0 /\ y = 0).
Proof.
  destruct v1 as [[e1 u1] d1], v2 as [[e2 u2] d2], v3 as [[e3 u3] d3].
  intros H12 H23 Hx Hy.
  destruct (compare_split_Ok_inv _ _ _ _ _ _ _ H12)
    as [[E12 ->]|[[E12 ->]|(E12 & xu & U12 & D12)]]; [|lia|].
  { (* the first epoch is lower *)
    destruct (compare_split_Ok_inv _ _ _ _ _ _ _ H23)
      as [[E23 ->]|[[E23 ->]|(E23 & _)]]; [|lia|];
      exists (-1); (split; [apply compare_split_by_epoch; lia | lia]). }
  destruct (compare_split_Ok_inv _ _ _ _ _ _ _ H23)
    as [[E23 ->]|[[E23 ->]|(E23 & yu & U23 & D23)]]; [|lia|].
  { exists (-1). split; [apply compare_split_by_epoch; lia | lia]. }
  subst e2 e3.
  assert (Hxu : xu <= 0) by
    (destruct D12 as [[_ <-]|[-> _]]; lia).
  assert (Hyu : yu <= 0) by
    (destruct D23 as [[_ <-]|[-> _]]; lia).
  destruct (compare_revision_strings_trans _ _ _ _ _ U12 U23 Hxu Hyu)
    as (zu & U13 & Hzu & Iu).
  destruct (Z.eq_dec zu 0) as [->|Hne].
  - (* the upstream revisions are equal: the debian revisions decide *)
    destruct (proj1 Iu eq_refl) as [-> ->].
    destruct D12 as [[N _]|[_ D12]]; [now elim N|].
    destruct D23 as [[N _]|[_ D23]]; [now elim N|].
    destruct (compare_revision_strings_trans _ _ _ _ _ D12 D23 Hx Hy)
      as (zd & D13 & Hzd & Id).
    exists zd. split; [exact (compare_split_by_debian _ _ _ _ _ _ U13 D13)|].
    split; [exact Hzd | exact Id].
  - exists zu. split; [exact (compare_split_by_upstream _ _ _ _ _ _ U13 Hne)|].
    split; [exact Hzu|]. split; [intros ->; now elim Hne|].
    intros [-> ->].
    destruct D12 as [[N E]|[-> _]]; [now elim N|].
    destruct D23 as [[N E]|[-> _]]; [now elim N|].
    elim Hne. now apply Iu.
Qed.

(** X9.  Where it returns, the revision comparison is transitive: when [r1]
    is not greater than [r2] and [r2] not greater than [r3], the comparison
    of [r1] with [r3] returns too, [r1] is not greater than [r3], and they
    are equal only when both steps are. *)
Theorem compare_revision_strings_transitive :
  forall (r1 r2 r3 : string) (x y : Z),
    compare_revision_strings r1 r2 = Ok x ->
    compare_revision_strings r2 r3 = Ok y ->
    x <= 0 -> y <= 0 ->
    exists z, compare_revision_strings r1 r3 = Ok z
              /\ z <= 0 /\ (z = 0 <-> x = 0 /\ y = 0).
Proof.
  intros r1 r2 r3 x y. apply compare_revision_strings_trans.
Qed.

Lemma compare_revision_strings_transitive_witness :
  compare_revision_strings "1.0~rc1" "1.0a" = Ok (-1)
  /\ compare_revision_strings "1.0a" "1.0.1" = Ok (-1)
  /\ exists z, compare_revision_strings "1.0~rc1" "1.0.1" = Ok z
               /\ z <= 0 /\ (z = 0 <-> -1 = 0 /\ -1 = 0).
Proof.
  split; [reflexivity|]. split; [reflexivity|].
  apply (compare_revision_strings_transitive "1.0~rc1" "1.0a" "1.0.1" (-1) (-1));
    [reflexivity | reflexivity | lia | lia].
Defined.

Lemma get_epoch_raises_only (s : string) (e : exn) :
  get_epoch s = Raise e -> e = DpkgVersionError.
Proof.
  unfold get_epoch. destruct (Py.index ":" s); [|discriminate].
  destruct (Py.int _) as [z|e'] eqn:Hi; cbn [try_except bind]; [discriminate|].
  rewrite (int_raises_ValueError _ _ Hi). cbn [exn_eqb]. now intros [= <-].
Qed.

Lemma split_full_version_raises (s : string) (e : exn) :
  split_full_version s = Raise e <-> get_epoch s = Raise e.
Proof.
  unfold split_full_version.
  destruct (get_epoch s) as [[epoch full_ver]|e']; cbn [bind].
  - destruct (get_upstream full_ver). split; discriminate.
  - split; intros [= ->]; reflexivity.
Qed.

(** [compare_split] returns -1, 0 or 1, and raises nothing but the
    [ValueError] of the revision comparison. *)
Lemma compare_split_outcome (v1 v2 : Z * string * string) :
  match compare_split v1 v2 with
  | Ok z => z = 0 \/ z = 1 \/ z = -1
  | Raise e => e = ValueError
  end.
Proof.
  destruct v1 as [[e1 u1] d1], v2 as [[e2 u2] d2]. unfold compare_split.
  destruct (e1 <? e2); [tauto|]. destruct (e1 >? e2); [tauto|].
  destruct (compare_revision_strings u1 u2) as [xu|e] eqn:Hu; cbn [bind].
  2: { now destruct (compare_revision_strings_raises _ _ _ Hu). }
  pose proof (compare_revision_strings_values _ _ _ Hu) as Vu.
  destruct (xu =? 0); cbn [negb]; [|exact Vu].
  destruct (compare_revision_strings d1 d2) as [xd|e] eqn:Hd; cbn [bind].
  2: { now destruct (compare_revision_strings_raises _ _ _ Hd). }
  pose proof (compare_revision_strings_values _ _ _ Hd) as Vd.
  destruct (xd =? 0); cbn [negb]; tauto.
Qed.

(** X10.  [compare_versions] raises [DpkgVersionError] exactly when the two
    strings differ and [get_epoch] rejects one of them.  The only other
    exception is the [ValueError] that [int] raises in the tokenizer, which
    is not caught; when the comparison returns, the result is -1, 0 or
    1. *)
Theorem compare_versions_raises_iff :
  forall a b : string,
    (compare_versions a b = Raise DpkgVersionError
     <-> a <> b /\ (get_epoch a = Raise DpkgVersionError
                    \/ get_epoch b = Raise DpkgVersionError))
    /\ (forall e, compare_versions a b = Raise e ->
          e = DpkgVersionError \/ e = ValueError)
    /\ (forall z, compare_versions a b = Ok z -> z = 0 \/ z = 1 \/ z = -1)
    /\ compare_versions (String "178" EmptyString) "1" = Raise ValueError.
Proof.
  intros a b.
  split; [|split; [|split; [|vm_compute; reflexivity]]];
    rewrite compare_versions_eq;
    destruct (String.eqb_spec a b) as [->|Hne].
  - split; [discriminate | intros [H _]; now elim H].
  - destruct (split_full_version a) as [v1|e1] eqn:Ha; cbn [bind].
    2: { apply split_full_version_raises in Ha as Ha'.
         pose proof (get_epoch_raises_only _ _ Ha') as ->. tauto. }
    destruct (split_full_version b) as [v2|e2] eqn:Hb; cbn [bind].
    2: { apply split_full_version_raises in Hb as Hb'.
         pose proof (get_epoch_raises_only _ _ Hb') as ->. tauto. }
    pose proof (compare_split_outcome v1 v2) as Ho. split.
    + intros H. rewrite H in Ho. discriminate.
    + intros [_ [H|H]]; apply split_full_version_raises in H; congruence.
  - discriminate.
  - destruct (split_full_version a) as [v1|e1] eqn:Ha; cbn [bind].
    2: { apply split_full_version_raises in Ha.
         pose proof (get_epoch_raises_only _ _ Ha) as ->.
         intros e [= <-]. now left. }
    destruct (split_full_version b) as [v2|e2] eqn:Hb; cbn [bind].
    2: { apply split_full_version_raises in Hb.
         pose proof (get_epoch_raises_only _ _ Hb) as ->.
         intros e [= <-]. now left. }
    pose proof (compare_split_outcome v1 v2) as Ho.
    intros e H. rewrite H in Ho. now right.
  - intros z [= <-]. tauto.
  - destruct (split_full_version a) as [v1|e1]; cbn [bind]; [|discriminate].
    destruct (split_full_version b) as [v2|e2]; cbn [bind]; [|discriminate].
    pose proof (compare_split_outcome v1 v2) as Ho.
    intros z H. now rewrite H in Ho.
Qed.

(** X11.  The epoch decides first: when both versions split and the epoch
    of the first is the lower one, the first version is the lesser one,
    whatever the revisions are. *)
Theorem compare_versions_epoch_first :
  forall (a b : string) (e1 e2 : Z) (u1 d1 u2 d2 : string),
    split_full_version a = Ok (e1, u1, d1) ->
    split_full_version b = Ok (e2, u2, d2) ->
    e1 < e2 ->
    compare_versions a b = Ok (-1) /\ compare_versions b a = Ok 1.
Proof.
  intros a b e1 e2 u1 d1 u2 d2 Ha Hb Hlt.
  rewrite !compare_versions_eq, (String.eqb_sym b a).
  destruct (String.eqb_spec a b) as [->|_].
  - rewrite Ha in Hb. injection Hb as -> _ _. lia.
  - rewrite Ha, Hb. cbn [bind compare_split]. rewrite !Z.gtb_ltb.
    destruct (Z.ltb_spec e1 e2), (Z.ltb_spec e2 e1); try lia. now split.
Qed.

Lemma compare_versions_epoch_first_witness :
  split_full_version "9.9-9" = Ok (0, "9.9", "9")
  /\ split_full_version "1:0.1" = Ok (1, "0.1", "0")
  /\ 0 < 1
  /\ compare_versions "9.9-9" "1:0.1" = Ok (-1)
  /\ compare_versions "1:0.1" "9.9-9" = Ok 1.
Proof.
  split; [reflexivity|]. split; [reflexivity|]. split; [lia|].
  apply (compare_versions_epoch_first "9.9-9" "1:0.1" 0 1 "9.9" "9" "0.1" "0");
    [reflexivity | reflexivity | lia].
Defined.

(** X12.  Where it returns, the version comparison is transitive: when [a]
    is not greater than [b] and [b] not greater than [c], then [a] is not
    greater than [c], and [a] and [c] compare equal exactly when both steps
    do.  So it orders a list of versions that split consistently. *)
Theorem compare_versions_transitive :
  forall (a b c : string) (x y : Z),
    compare_versions a b = Ok x -> compare_versions b c = Ok y ->
    x <= 0 -> y <= 0 ->
    exists z, compare_versions a c = Ok z
              /\ z <= 0 /\ (z = 0 <-> x = 0 /\ y = 0).
Proof.
  intros a b c x y. rewrite !compare_versions_eq.
  destruct (String.eqb_spec a b) as [->|Hab].
  { intros [= <-] H _ Hy. exists y. split; [exact H|]. split; [exact Hy|tauto]. }
  destruct (String.eqb_spec b c) as [->|Hbc].
  { intros H [= <-] Hx _.
    destruct (String.eqb_spec a c) as [->|_]; [now elim Hab|].
    exists x. split; [exact H|]. split; [exact Hx|tauto]. }
  destruct (split_full_version a) as [v1|] eqn:Ha; [|discriminate].
  destruct (split_full_version b) as [v2|] eqn:Hb; [|discriminate].
  destruct (split_full_version c) as [v3|] eqn:Hc; [|discriminate].
  cbn [bind]. intros H1 H2 Hx Hy.
  destruct (compare_split_trans _ _ _ _ _ H1 H2 Hx Hy) as (z & Hz & Hle & Hiff).
  destruct (String.eqb_spec a c) as [->|_].
  - (* the same string at both ends *)
    assert (v1 = v3) as -> by congruence.
    rewrite compare_split_refl in Hz. injection Hz as <-.
    exists 0. split; [reflexivity|]. split; [lia | exact Hiff].
  - exists z. tauto.
Qed.

Lemma compare_versions_transitive_witness :
  compare_versions "1.0" "1.0a" = Ok (-1)
  /\ compare_versions "1.0a" "1:0" = Ok (-1)
  /\ -1 <= 0
  /\ exists z, compare_versions "1.0" "1:0" = Ok z
               /\ z <= 0 /\ (z = 0 <-> -1 = 0 /\ -1 = 0).
Proof.
  split; [reflexivity|]. split; [reflexivity|]. split; [lia|].
  apply (compare_versions_transitive "1.0" "1.0a" "1:0" (-1) (-1));
    [reflexivity | reflexivity | lia | lia].
Defined.

(** ** Splitting off the debian revision *)

Lemma rindex_Some (c : ascii) (s : string) :
  forall i, Py.rindex c s = Some i ->
  s = Py.slice_to i s ++ String c (Py.slice_from (S i) s)
  /\ Py.contains c (Py.slice_from (S i) s) = false.
Proof.
  induction s as [|c' s IH]; intros i; cbn [Py.rindex]; [discriminate|].
  destruct (Py.rindex c s) as [j|] eqn:Hj.
  - intros [= <-]. destruct (IH j eq_refl) as [Hs Hc].
    rewrite slice_from_S.
    change (Py.slice_to (S j) (String c' s)) with (String c' (Py.slice_to j s)).
    cbn [String.append]. now rewrite <- Hs.
  - destruct (Ascii.eqb_spec c' c) as [->|]; [|discriminate].
    intros [= <-]. split.
    + cbn [Py.slice_to String.append]. now destruct s.
    + rewrite slice_from_S. apply rindex_None in Hj. now destruct s.
Qed.

(** X13.  [get_upstream] cuts at the last hyphen: the debian revision has no
    hyphen, and upstream revision, hyphen and debian revision give the
    string back; a string without a hyphen is its own upstream revision,
    with the debian revision "0". *)
Theorem get_upstream_last_hyphen :
  forall version_str : string,
    let upstream := fst (get_upstream version_str) in
    let debian := snd (get_upstream version_str) in
    if Py.contains "-" version_str
    then version_str = upstream ++ String "-" debian
         /\ Py.contains "-" debian = false
    else upstream = version_str /\ debian = "0".
Proof.
  intros s. cbv zeta. unfold get_upstream.
  destruct (Py.rindex "-" s) as [i|] eqn:Hi.
  - destruct (rindex_Some _ _ _ Hi) as [Hs Hc].
    destruct (Py.contains "-" s) eqn:Hh.
    + cbn [fst snd]. replace (i + 1)%nat with (S i) by lia. now split.
    + apply rindex_None in Hh. congruence.
  - apply rindex_None in Hi as ->. now split.
Qed.

(** ** The control message, further *)

Lemma header_missing_false (message : Message) (req : string) :
  header_missing message req = false
  <-> exists k, In k (Msg.keys message) /\ Py.lower k = req.
Proof.
  unfold header_missing. rewrite negb_false_iff, existsb_exists. split.
  - intros (x & Hin & He). apply in_map_iff in Hin as (k & <- & Hk).
    apply String.eqb_eq in He. eauto.
  - intros (k & Hk & <-). exists (Py.lower k). split.
    + now apply in_map.
    + apply String.eqb_refl.
Qed.

Lemma has_required_not_missing (message : Message) :
  has_required_headers message -> some_required_missing message = false.
Proof.
  intros H. unfold some_required_missing.
  destruct (existsb _ _) eqn:E; [|reflexivity].
  apply existsb_exists in E as (req & Hin & Hm).
  apply H, header_missing_false in Hin. congruence.
Qed.

Lemma process_complete (ignore : bool) (message : Message) (stdin : Stdin) :
  has_required_headers message ->
  _process_dpkg_file ignore message stdin = (Ok message, stdin).
Proof.
  intros H. unfold _process_dpkg_file.
  rewrite (check_required_present _ _ _ _ (has_required_not_missing _ H)).
  now rewrite coerce_headers_id.
Qed.

(** X14.  When the control file has the three required headers, in any case
    of letters, [_process_dpkg_file] returns its headers as they are, in
    the same order and with duplicates, in both modes, and does not enter
    the debugger. *)
Theorem process_dpkg_file_complete :
  forall (ignore : bool) (message : Message) (stdin : Stdin),
    has_required_headers message ->
    _process_dpkg_file ignore message stdin = (Ok message, stdin).
Proof. exact process_complete. Qed.

Lemma process_dpkg_file_complete_witness :
  has_required_headers
    [("PACKAGE", "foo"); ("version", "1"); ("Architecture", "all");
     ("Depends", "a"); ("Depends", "b")]
  /\ _process_dpkg_file false
       [("PACKAGE", "foo"); ("version", "1"); ("Architecture", "all");
        ("Depends", "a"); ("Depends", "b")] [PdbQuit]
     = (Ok [("PACKAGE", "foo"); ("version", "1"); ("Architecture", "all");
            ("Depends", "a"); ("Depends", "b")], [PdbQuit]).
Proof.
  assert (H : has_required_headers
    [("PACKAGE", "foo"); ("version", "1"); ("Architecture", "all");
     ("Depends", "a"); ("Depends", "b")]).
  { intros req [<-|[<-|[<-|[]]]].
    - exists "PACKAGE". split; [cbn; tauto | reflexivity].
    - exists "version". split; [cbn; tauto | reflexivity].
    - exists "Architecture". split; [cbn; tauto | reflexivity]. }
  split; [exact H|].
  exact (process_dpkg_file_complete false _ [PdbQuit] H).
Defined.

Lemma dict_fold_lookup_last (pairs : list (string * string)) :
  forall (d : gmap string string) (k : string),
    fold_left (fun d kv => <[fst kv := snd kv]> d) pairs d !! k
    = match lookup_last pairs k with
      | Some v => Some v
      | None => d !! k
      end.
Proof.
  induction pairs as [|[k' v] pairs IH]; intros d k;
    cbn [fold_left lookup_last fst snd]; [reflexivity|].
  rewrite IH. destruct (lookup_last pairs k); [reflexivity|].
  destruct (String.eqb_spec k' k) as [->|Hne].
  - apply lookup_insert_eq.
  - now apply lookup_insert_ne.
Qed.

(** [dict(pairs)[k]] is the value of the last pair with the key [k]. *)
Lemma dict_lookup_last (pairs : list (string * string)) (k : string) :
  dict pairs !! k = lookup_last pairs k.
Proof.
  unfold dict. rewrite dict_fold_lookup_last, lookup_empty.
  now destruct (lookup_last pairs k).
Qed.

Lemma lookup_last_None (pairs : list (string * string)) (k : string) :
  (forall v, ~ In (k, v) pairs) -> lookup_last pairs k = None.
Proof.
  induction pairs as [|[k' v'] pairs IH]; intros H; [reflexivity|].
  cbn [lookup_last]. rewrite IH by (intros v Hv; apply (H v); now right).
  destruct (String.eqb_spec k' k) as [->|]; [|reflexivity].
  elim (H v'). now left.
Qed.

Lemma headers_new_complete (file : Message) (ignore : bool) (stdin : Stdin) :
  has_required_headers file ->
  exists self',
    headers (new_Dpkg file ignore) stdin
    = (Ok (dict (Msg.items file)), self', stdin).
Proof.
  intros H. unfold headers, message. cbn [new_Dpkg _headers _message
    ignore_missing control].
  rewrite (process_complete _ _ _ H). eauto.
Qed.

(** X15.  On a new object whose control file has the required headers,
    [get_header] returns the value of the last header whose name is the
    lower-cased query, letter for letter, and the empty string when there
    is none: a header is found only if the control file writes its name in
    lower case. *)
Theorem get_header_exact_lowercase_name :
  forall (control : Message) (ignore : bool) (header : string) (stdin : Stdin),
    has_required_headers control ->
    fst (fst (get_header (new_Dpkg control ignore) header stdin))
    = Ok (default EmptyString (lookup_last control (Py.lower header)))
    /\ snd (get_header (new_Dpkg control ignore) header stdin) = stdin
    /\ ((forall v, ~ In (Py.lower header, v) control) ->
        fst (fst (get_header (new_Dpkg control ignore) header stdin))
        = Ok EmptyString).
Proof.
  intros control ignore header stdin H.
  destruct (headers_new_complete control ignore stdin H) as (self' & Hh).
  unfold get_header. rewrite Hh. cbn [fst snd].
  rewrite dict_lookup_last. split; [reflexivity|]. split; [reflexivity|].
  intros Hn. unfold Msg.items. now rewrite (lookup_last_None _ _ Hn).
Qed.

Lemma foo_control_complete : has_required_headers foo_control.
Proof.
  intros req [<-|[<-|[<-|[]]]].
  - exists "Package". split; [cbn; tauto | reflexivity].
  - exists "Version". split; [cbn; tauto | reflexivity].
  - exists "Architecture". split; [cbn; tauto | reflexivity].
Defined.

Lemma get_header_exact_lowercase_name_witness :
  has_required_headers foo_control
  /\ fst (fst (get_header (new_Dpkg foo_control false) "VERSION" []))
     = Ok (default EmptyString (lookup_last foo_control (Py.lower "VERSION"))).
Proof.
  split; [exact foo_control_complete|].
  exact (proj1 (get_header_exact_lowercase_name foo_control false "VERSION" []
                  foo_control_complete)).
Defined.

(** X16.  Once [headers] has returned a dictionary that is not empty, the
    object answers from its cache: [get_header] on the resulting object
    returns the entry of that dictionary, does not run the check of the
    required headers again and so never stops in the debugger, and leaves
    the object as it is. *)
Theorem headers_cached :
  forall (self self' : Dpkg) (stdin stdin' : Stdin) (d : gmap string string),
    headers self stdin = (Ok d, self', stdin') ->
    d <> ∅ ->
    forall (header : string) (stdin2 : Stdin),
      get_header self' header stdin2
      = (Ok (default EmptyString (d !! Py.lower header)), self', stdin2).
Proof.
  intros self self' stdin stdin' d Hh Hd header stdin2.
  assert (Hc : _headers self' = Some d).
  { revert Hh. unfold headers.
    destruct (_headers self) as [d0|] eqn:E0.
    - destruct (decide (d0 = ∅)) as [->|Hne].
      + destruct (message self stdin) as [[[m|e] s1] s2]; [|discriminate].
        now intros [= <- <- _].
      + intros [= <- <- _]. exact E0.
    - destruct (message self stdin) as [[[m|e] s1] s2]; [|discriminate].
      now intros [= <- <- _]. }
  unfold get_header, headers. rewrite Hc.
  destruct (decide (d = ∅)) as [->|_]; [now elim Hd | reflexivity].
Qed.

Lemma headers_cached_witness :
  (exists self' d,
      headers (new_Dpkg [("Package", "foo")] true)
              [PdbContinue; PdbContinue] = (Ok d, self', [])
      /\ d <> ∅
      /\ get_header self' "Package" []
         = (Ok (default EmptyString (d !! Py.lower "Package")), self', [])).
Proof.
  eexists. eexists. split; [reflexivity|].
  assert (Hd : (dict (Msg.items [("Package", "foo")]) : gmap string string) <> ∅).
  { intros H. apply (f_equal (fun m => m !! "Package")) in H.
    vm_compute in H. discriminate. }
  split; [exact Hd|].
  refine (headers_cached (new_Dpkg [("Package", "foo")] true) _
            [PdbContinue; PdbContinue] [] _ _ Hd "Package" []).
  reflexivity.
Defined.

(** X17.  [compare_version_with] compares the value that [get_header] finds
    under "version": on a new object whose control file has the required
    headers it is the value of the last header named "version" in lower
    case, and the empty string when the name is written in another way, as
    in [Version: 1.0-1]; the version of the package then plays no part. *)
Theorem compare_version_with_lowercase_key :
  forall (control : Message) (ignore : bool) (version_str : string)
         (stdin : Stdin),
    has_required_headers control ->
    fst (fst (compare_version_with (new_Dpkg control ignore) version_str stdin))
    = compare_versions
        (default EmptyString (lookup_last control "version")) version_str
    /\ ((forall v, ~ In ("version", v) control) ->
        fst (fst (compare_version_with (new_Dpkg control ignore)
                    version_str stdin))
        = compare_versions EmptyString version_str).
Proof.
  intros control ignore version_str stdin H.
  destruct (headers_new_complete control ignore stdin H) as (self' & Hh).
  unfold compare_version_with, get_header. rewrite Hh. cbn [fst snd].
  rewrite dict_lookup_last. unfold Msg.items.
  change (Py.lower "version") with "version".
  split; [reflexivity|].
  intros Hn. now rewrite (lookup_last_None _ _ Hn).
Qed.

Lemma compare_version_with_lowercase_key_witness :
  has_required_headers foo_control
  /\ (forall v, ~ In ("version", v) foo_control)
  /\ fst (fst (compare_version_with (new_Dpkg foo_control false) "1.0-1" []))
     = compare_versions EmptyString "1.0-1".
Proof.
  assert (Hn : forall v, ~ In ("version", v) foo_control).
  { intros v [H|[H|[H|[]]]]; discriminate H. }
  split; [exact foo_control_complete|]. split; [exact Hn|].
  exact (proj2 (compare_version_with_lowercase_key foo_control false "1.0-1" []
                  foo_control_complete) Hn).
Defined.

(** ** The archive *)

(** [basename] is what follows the last slash: it has no slash, a
    path without a slash is its own base name, and the directory in front
    of a name does not matter. *)
Theorem basename_after_last_slash :
  forall p : string,
    Py.contains "/" (basename p) = false
    /\ (Py.contains "/" p = false -> basename p = p)
    /\ (forall dir, Py.contains "/" p = false ->
                    basename (dir ++ String "/" p) = p).
Proof.
  intros p. split; [|split].
  - unfold basename. destruct (Py.rindex "/" p) as [i|] eqn:Hi.
    + replace (i + 1)%nat with (S i) by lia.
      exact (proj2 (rindex_Some _ _ _ Hi)).
    + now apply rindex_None.
  - intros H. apply rindex_None in H. unfold basename. now rewrite H.
  - intros dir H. unfold basename. rewrite (rindex_app "/" dir p H).
    replace (String.length dir + 1)%nat
      with (String.length (dir ++ String "/" EmptyString))
      by (rewrite length_app_one; lia).
    rewrite <- (app_one_assoc dir "/" p). apply slice_from_length_app.
Qed.

Lemma basename_after_last_slash_witness :
  Py.contains "/" "control" = false
  /\ basename "control" = "control"
  /\ basename ("." ++ String "/" "control") = "control".
Proof.
  split; [reflexivity|]. split.
  - apply (proj1 (proj2 (basename_after_last_slash "control"))). reflexivity.
  - apply (proj2 (proj2 (basename_after_last_slash "control")) "."). reflexivity.
Defined.

Lemma existsb_control_false (members : list TarInfo) :
  existsb (String.eqb "control")
          (map (fun x => basename (member_name x)) members) = false
  <-> no_control_member members.
Proof.
  unfold no_control_member. split.
  - intros H x Hin He.
    assert (existsb (String.eqb "control")
              (map (fun x => basename (member_name x)) members) = true).
    { apply existsb_exists. exists (basename (member_name x)). split.
      - apply in_map_iff. eauto.
      - rewrite He. apply String.eqb_refl. }
    congruence.
  - intros H. destruct (existsb _ _) eqn:E; [|reflexivity].
    apply existsb_exists in E as (n & Hin & He).
    apply in_map_iff in Hin as (x & <- & Hx). apply String.eqb_eq in He.
    elim (H x Hx). now symmetry.
Qed.

Lemma list_index_first (pre : list TarInfo) (m : TarInfo) (post : list TarInfo) :
  no_control_member pre -> basename (member_name m) = "control" ->
  list_index "control"
    (map (fun x => basename (member_name x)) (pre ++ m :: post)%list)
  = Some (List.length pre)
  /\ nth_error (pre ++ m :: post)%list (List.length pre) = Some m.
Proof.
  intros Hpre Hm. induction pre as [|x pre IH]; cbn [List.app map list_index].
  - rewrite Hm, String.eqb_refl. now split.
  - assert (Hx : basename (member_name x) <> "control")
      by (apply Hpre; now left).
    apply String.eqb_neq in Hx as ->.
    destruct IH as [-> Hn]; [intros y Hy; apply Hpre; now right|].
    now split.
Qed.

Lemma read_control_message_missing (archived_files : gmap string ar_member) :
  (read_control_message archived_files = Fail DpkgMissingControlGzipFile
   <-> archived_files !! "control.tar.gz" = None)
  /\ (read_control_message archived_files = Fail DpkgMissingControlFile
      <-> exists members,
            archived_files !! "control.tar.gz" = Some (GzipTar members)
            /\ no_control_member members).
Proof.
  unfold read_control_message.
  destruct (archived_files !! "control.tar.gz") as [[|members]|] eqn:E.
  - split; split; try discriminate. intros (ms & [=] & _).
  - destruct (existsb (String.eqb "control") _) eqn:Hex; cbn [negb].
    + assert (Hno : ~ no_control_member members).
      { intros H. apply existsb_control_false in H. congruence. }
      destruct (list_index _ _) as [i|]; [destruct (nth_error _ _) as [m|];
        [destruct (content m)|]|];
        (split; split; try discriminate; intros (ms & [= <-] & H); now elim Hno).
    + apply existsb_control_false in Hex.
      split; split; try discriminate; eauto.
  - split; split; try discriminate; try reflexivity. intros (ms & [=] & _).
Qed.

Lemma process_dpkg_archive_fail (ignore : bool)
    (archived_files : gmap string ar_member) (stdin : Stdin) (e : dpkg_exn) :
  (forall e', e <> Builtin e') ->
  (fst (process_dpkg_archive ignore archived_files stdin) = Fail e
   <-> read_control_message archived_files = Fail e)
  /\ (read_control_message archived_files = Fail e ->
      snd (process_dpkg_archive ignore archived_files stdin) = stdin).
Proof.
  intros He. unfold process_dpkg_archive.
  destruct (read_control_message archived_files) as [message|e0].
  - destruct (_process_dpkg_file ignore message stdin) as [[m|e1] stdin'];
      cbn [fst snd]; split; try discriminate;
      split; try discriminate. intros [= <-]. now elim (He e1).
  - cbn [fst snd]. tauto.
Qed.

(** X18.  [_process_dpkg_file] raises [DpkgMissingControlGzipFile] exactly
    when the outer archive has no member "control.tar.gz", and
    [DpkgMissingControlFile] exactly when that member is a tar archive
    without a member whose base name is "control"; this in both modes,
    before any header is looked at. *)
Theorem process_dpkg_archive_missing :
  forall (ignore : bool) (archived_files : gmap string ar_member)
         (stdin : Stdin),
    (fst (process_dpkg_archive ignore archived_files stdin)
       = Fail DpkgMissingControlGzipFile
     <-> archived_files !! "control.tar.gz" = None)
    /\ (fst (process_dpkg_archive ignore archived_files stdin)
          = Fail DpkgMissingControlFile
        <-> exists members,
              archived_files !! "control.tar.gz" = Some (GzipTar members)
              /\ no_control_member members).
Proof.
  intros ignore archived_files stdin.
  destruct (read_control_message_missing archived_files) as [H1 H2].
  split.
  - rewrite <- H1.
    apply (process_dpkg_archive_fail ignore archived_files stdin). discriminate.
  - rewrite <- H2.
    apply (process_dpkg_archive_fail ignore archived_files stdin). discriminate.
Qed.

Lemma read_control_message_first :
  forall (archived_files : gmap string ar_member)
         (pre post : list TarInfo) (m : TarInfo),
    archived_files !! "control.tar.gz" = Some (GzipTar (pre ++ m :: post)%list) ->
    no_control_member pre ->
    basename (member_name m) = "control" ->
    read_control_message archived_files
    = match content m with
      | NotAFile => Fail AttributeError
      | NotUtf8 => Fail UnicodeDecodeError
      | ControlText message => Done message
      end.
Proof.
  intros archived_files pre post m E Hpre Hm. unfold read_control_message.
  rewrite E.
  destruct (list_index_first pre m post Hpre Hm) as [Hi Hn].
  assert (Hex : existsb (String.eqb "control")
            (map (fun x => basename (member_name x)) (pre ++ m :: post)%list)
          = true).
  { apply existsb_exists. exists (basename (member_name m)). split.
    - apply in_map_iff. exists m. split; [reflexivity|].
      apply in_or_app. right. now left.
    - rewrite Hm. apply String.eqb_refl. }
  rewrite Hex. cbn [negb]. now rewrite Hi, Hn.
Qed.

Lemma foo_members_pre :
  no_control_member
    [ {| member_name := "./"; content := NotAFile |};
      {| member_name := "./md5sums"; content := ControlText [] |} ].
Proof.
  intros x [<-|[<-|[]]]; vm_compute; discriminate.
Defined.


(** X20.  For an archive whose member "control.tar.gz" is a tar archive
    and whose first member with the base name "control" is a control file
    with the three required headers, [_process_dpkg_file] as a whole
    returns the headers of that file, in both modes and without entering
    the debugger. *)
Theorem process_dpkg_archive_well_formed :
  forall (ignore : bool) (archived_files : gmap string ar_member)
         (pre post : list TarInfo) (m : TarInfo) (message : Message)
         (stdin : Stdin),
    archived_files !! "control.tar.gz" = Some (GzipTar (pre ++ m :: post)%list) ->
    no_control_member pre ->
    basename (member_name m) = "control" ->
    content m = ControlText message ->
    has_required_headers message ->
    process_dpkg_archive ignore archived_files stdin = (Done message, stdin).
Proof.
  intros ignore archived_files pre post m message stdin E Hpre Hm Hc Hreq.
  unfold process_dpkg_archive.
  rewrite (read_control_message_first _ _ _ _ E Hpre Hm), Hc.
  now rewrite (process_complete _ _ _ Hreq).
Qed.

Lemma process_dpkg_archive_well_formed_witness :
  foo_archive !! "control.tar.gz" = Some (GzipTar foo_members)
  /\ has_required_headers foo_control
  /\ process_dpkg_archive false foo_archive [] = (Done foo_control, []).
Proof.
  split; [reflexivity|]. split; [exact foo_control_complete|].
  exact (process_dpkg_archive_well_formed false foo_archive
           [ {| member_name := "./"; content := NotAFile |};
             {| member_name := "./md5sums"; content := ControlText [] |} ]
           [ {| member_name := "old/control"; content := NotUtf8 |} ]
           {| member_name := "./control"; content := ControlText foo_control |}
           foo_control []
           eq_refl foo_members_pre eq_refl eq_refl foo_control_complete).
Defined.


(** ** Versions, further *)

Lemma get_epoch_Ok_inv (s : string) (e : Z) (rest : string) :
  get_epoch s = Ok (e, rest) ->
  (Py.contains ":" s = false /\ e = 0 /\ rest = s)
  \/ (exists prefix, s = prefix ++ String ":" rest
                     /\ Py.contains ":" prefix = false
                     /\ Py.int prefix = Ok e).
Proof.
  destruct (Py.contains ":" s) eqn:Hc.
  - destruct (get_epoch_has_colon s Hc) as (prefix & rest' & -> & Hp).
    rewrite (get_epoch_split _ _ Hp).
    destruct (Py.int prefix) as [z|e'] eqn:Hi; cbn [try_except bind].
    + intros [= <- <-]. right. eauto.
    + destruct (exn_eqb e' ValueError); discriminate.
  - rewrite (get_epoch_no_colon _ Hc). intros [= <- <-]. now left.
Qed.

(** X21.  What [split_full_version] returns gives the version string back:
    the string is the upstream revision, with the epoch text and a colon in
    front when there is a first colon, where [int] reads the epoch from
    that text, and with a hyphen and the debian revision behind when the
    rest has a hyphen, the last one; epoch 0 and debian revision "0" stand
    for the parts that are not there. *)
Theorem split_full_version_reassembles :
  forall (version_str : string) (epoch : Z) (upstream debian : string),
    split_full_version version_str = Ok (epoch, upstream, debian) ->
    exists head tail : string,
      version_str = head ++ upstream ++ tail
      /\ ((head = EmptyString /\ epoch = 0
           /\ Py.contains ":" version_str = false)
          \/ (exists prefix, head = prefix ++ ":"
                             /\ Py.contains ":" prefix = false
                             /\ Py.int prefix = Ok epoch))
      /\ ((tail = EmptyString /\ debian = "0"
           /\ Py.contains "-" upstream = false)
          \/ (tail = String "-" debian /\ Py.contains "-" debian = false)).
Proof.
  intros s e u d. unfold split_full_version.
  destruct (get_epoch s) as [[e' full]|] eqn:He; [|discriminate].
  cbn [bind]. destruct (get_upstream full) as [u' d'] eqn:Hu.
  intros [= -> -> ->].
  assert (Ht : exists tail, full = u ++ tail
      /\ ((tail = EmptyString /\ d = "0" /\ Py.contains "-" u = false)
          \/ (tail = String "-" d /\ Py.contains "-" d = false))).
  { revert Hu. unfold get_upstream.
    destruct (Py.rindex "-" full) as [i|] eqn:Hi.
    - destruct (rindex_Some _ _ _ Hi) as [Hs Hc].
      replace (i + 1)%nat with (S i) by lia. intros [= <- <-].
      eexists. split; [exact Hs|]. right. now split.
    - intros [= <- <-]. exists EmptyString. rewrite append_empty_r.
      split; [reflexivity|]. left. apply rindex_None in Hi. now repeat split. }
  destruct Ht as (tail & -> & Htail).
  destruct (get_epoch_Ok_inv _ _ _ He) as [(Hc & -> & Hs)|(prefix & Hs & Hp & Hi)].
  - exists EmptyString, tail. split; [now rewrite Hs|].
    split; [left; now repeat split | exact Htail].
  - exists (prefix ++ ":"), tail. split.
    + rewrite Hs. now rewrite append_assoc.
    + split; [right; eauto | exact Htail].
Qed.

Lemma split_full_version_reassembles_witness :
  split_full_version "2:1.0-rc-3" = Ok (2, "1.0-rc", "3")
  /\ exists head tail : string,
      "2:1.0-rc-3" = head ++ "1.0-rc" ++ tail
      /\ ((head = EmptyString /\ 2 = 0
           /\ Py.contains ":" "2:1.0-rc-3" = false)
          \/ (exists prefix, head = prefix ++ ":"
                             /\ Py.contains ":" prefix = false
                             /\ Py.int prefix = Ok 2))
      /\ ((tail = EmptyString /\ "3" = "0"
           /\ Py.contains "-" "1.0-rc" = false)
          \/ (tail = String "-" "3" /\ Py.contains "-" "3" = false)).
Proof.
  split; [reflexivity|].
  apply (split_full_version_reassembles "2:1.0-rc-3" 2 "1.0-rc" "3").
  reflexivity.
Defined.

Lemma compare_revision_strings_zero (r1 r2 : string) (l1 l2 : list token) :
  listify r1 = Ok l1 -> listify r2 = Ok l2 ->
  (compare_revision_strings r1 r2 = Ok 0 <-> l1 = l2).
Proof.
  intros H1 H2. rewrite (compare_revision_strings_tokens _ _ _ _ H1 H2).
  apply compare_token_lists_zero.
Qed.

(** X22.  Two versions that split, and whose revisions [listify] reads,
    compare equal exactly when they have the same epoch and their upstream
    revisions, and their debian revisions, have the same tokens. *)
Theorem compare_versions_zero_iff :
  forall (a b : string) (e1 e2 : Z) (u1 d1 u2 d2 : string)
         (lu1 ld1 lu2 ld2 : list token),
    split_full_version a = Ok (e1, u1, d1) ->
    split_full_version b = Ok (e2, u2, d2) ->
    listify u1 = Ok lu1 -> listify d1 = Ok ld1 ->
    listify u2 = Ok lu2 -> listify d2 = Ok ld2 ->
    (compare_versions a b = Ok 0 <-> e1 = e2 /\ lu1 = lu2 /\ ld1 = ld2).
Proof.
  intros a b e1 e2 u1 d1 u2 d2 lu1 ld1 lu2 ld2 Ha Hb Lu1 Ld1 Lu2 Ld2.
  rewrite compare_versions_eq.
  destruct (String.eqb_spec a b) as [->|_].
  - rewrite Ha in Hb. injection Hb as -> -> ->.
    split; [intros _|reflexivity]. repeat split; congruence.
  - rewrite Ha, Hb. cbn [bind]. split.
    + intros H.
      destruct (compare_split_Ok_inv _ _ _ _ _ _ _ H)
        as [[_ N]|[[_ N]|(E & xu & U & D)]]; try discriminate.
      split; [exact E|].
      destruct D as [[N E0]|[-> D]]; [congruence|].
      split; [exact (proj1 (compare_revision_strings_zero _ _ _ _ Lu1 Lu2) U)
             | exact (proj1 (compare_revision_strings_zero _ _ _ _ Ld1 Ld2) D)].
    + intros (-> & -> & ->).
      apply compare_split_by_debian;
        [exact (proj2 (compare_revision_strings_zero _ _ _ _ Lu1 Lu2) eq_refl)
        | exact (proj2 (compare_revision_strings_zero _ _ _ _ Ld1 Ld2) eq_refl)].
Qed.

Lemma compare_versions_zero_iff_witness :
  split_full_version "1.00-a" = Ok (0, "1.00", "a")
  /\ split_full_version "0:1.0-a0" = Ok (0, "1.0", "a0")
  /\ listify "1.00" = Ok [TStr EmptyString; TInt 1; TStr "."; TInt 0]
  /\ listify "a" = Ok [TStr "a"; TInt 0]
  /\ listify "1.0" = Ok [TStr EmptyString; TInt 1; TStr "."; TInt 0]
  /\ listify "a0" = Ok [TStr "a"; TInt 0]
  /\ (compare_versions "1.00-a" "0:1.0-a0" = Ok 0
      <-> 0 = 0
          /\ [TStr EmptyString; TInt 1; TStr "."; TInt 0]
             = [TStr EmptyString; TInt 1; TStr "."; TInt 0]
          /\ [TStr "a"; TInt 0] = [TStr "a"; TInt 0]).
Proof.
  do 6 (split; [reflexivity|]).
  apply (compare_versions_zero_iff "1.00-a" "0:1.0-a0" 0 0 "1.00" "a" "1.0" "a0");
    reflexivity.
Defined.

(** ** The debugger stops, counted *)

Lemma check_required_permissive (message : Message) (reqs : list string) :
  forall stdin,
    all_continue stdin = true ->
    (List.length reqs <= List.length stdin)%nat ->
    check_required true message reqs stdin
    = (Ok tt,
       skipn (List.length (List.filter (header_missing message) reqs)) stdin).
Proof.
  induction reqs as [|req reqs IH]; intros stdin Hc Hl; [reflexivity|].
  cbn [check_required List.filter]. cbn [List.length] in Hl.
  destruct (header_missing message req).
  - destruct stdin as [|[|] stdin]; cbn [List.length] in Hl;
      [lia| |discriminate].
    cbn [pdb_set_trace List.length skipn]. apply IH; [exact Hc | lia].
  - apply IH; [exact Hc | lia].
Qed.

(** X23.  In permissive mode, when the operator resumes the program at
    every stop, [_process_dpkg_file] returns the headers as they are, with
    the missing ones missing, after one stop in the debugger for each
    required header that is missing. *)
Theorem process_dpkg_file_permissive_resumed :
  forall (message : Message) (stdin : Stdin),
    all_continue stdin = true ->
    (3 <= List.length stdin)%nat ->
    _process_dpkg_file true message stdin
    = (Ok message,
       skipn (List.length (List.filter (header_missing message) REQUIRED_HEADERS))
             stdin).
Proof.
  intros message stdin Hc Hl. unfold _process_dpkg_file.
  rewrite (check_required_permissive message REQUIRED_HEADERS stdin Hc Hl).
  now rewrite coerce_headers_id.
Qed.

Lemma process_dpkg_file_permissive_resumed_witness :
  all_continue [PdbContinue; PdbContinue; PdbContinue] = true
  /\ (3 <= List.length [PdbContinue; PdbContinue; PdbContinue])%nat
  /\ _process_dpkg_file true [("Package", "foo")]
       [PdbContinue; PdbContinue; PdbContinue]
     = (Ok [("Package", "foo")], [PdbContinue]).
Proof.
  split; [reflexivity|]. split; [cbn; lia|].
  apply (process_dpkg_file_permissive_resumed [("Package", "foo")]
           [PdbContinue; PdbContinue; PdbContinue]); [reflexivity | cbn; lia].
Defined.
